(** * Block-model compression grader: the streaming chunk-wise validator

    A shallow embedding of [runner.py].  Python values are modelled as
    follows: [int] as [Z] (unbounded), [str] as [string] over the ASCII
    alphabet, a text file opened for reading as the stream of results its
    successive [readline()] calls deliver, a list as [list], the quotient
    computed by [/] on two ints as an exact rational [Q].  Diagnostics
    printed with [file=stderr] are collected in a log; the progress
    narration printed to [stdvout] is not modelled, except for the
    divisions among its arguments, which can raise. *)

From Stdlib Require Import ZArith QArith List String Ascii Bool Lia.
From Stdlib Require Import Permutation Sorting.Sorted.
Import ListNotations.

Local Open Scope string_scope.
Local Open Scope Z_scope.
Local Open Scope list_scope.

(** ** Python built-ins used by the script *)

Module Py.

Definition LF : ascii := Ascii.ascii_of_nat 10.
Definition CR : ascii := Ascii.ascii_of_nat 13.
Definition nl : string := String LF EmptyString.

Definition len (s : string) : Z := Z.of_nat (String.length s).

(** [c in chars] for a one-character [c]. *)
Fixpoint mem (c : ascii) (chars : string) : bool :=
  match chars with
  | EmptyString => false
  | String a chars' => if Ascii.eqb c a then true else mem c chars'
  end.

(** [s.lstrip(chars)], [s.rstrip(chars)] and [s.strip(chars)]. *)
Fixpoint lstrip (chars s : string) : string :=
  match s with
  | EmptyString => EmptyString
  | String a s' => if mem a chars then lstrip chars s' else s
  end.

Fixpoint rstrip (chars s : string) : string :=
  match s with
  | EmptyString => EmptyString
  | String a s' =>
      match rstrip chars s' with
      | EmptyString => if mem a chars then EmptyString else String a EmptyString
      | r => String a r
      end
  end.

Definition strip (chars s : string) : string := rstrip chars (lstrip chars s).

(** [s.rfind(c)]: the highest index of [c] in [s], or [-1]. *)
Fixpoint rfind (c : ascii) (s : string) : Z :=
  match s with
  | EmptyString => -1
  | String a s' =>
      let r := rfind c s' in
      if r =? -1 then (if Ascii.eqb a c then 0 else -1) else r + 1
  end.

(** Slices [s[i:]] and [s[:i]] (a negative index counts from the end). *)
Definition clamp (i : Z) (s : string) : nat :=
  Z.to_nat (if i <? 0 then Z.max 0 (len s + i) else Z.min i (len s)).

Definition slice_from (i : Z) (s : string) : string :=
  String.substring (clamp i s) (String.length s - clamp i s) s.

Definition slice_to (i : Z) (s : string) : string :=
  String.substring 0 (clamp i s) s.

(** [s.split(c)]: never empty; [''.split(',') == ['']]. *)
Fixpoint split (c : ascii) (s : string) : list string :=
  match s with
  | EmptyString => [EmptyString]
  | String a s' =>
      match split c s' with
      | h :: t => if Ascii.eqb a c then EmptyString :: h :: t else String a h :: t
      | [] => [EmptyString]
      end
  end.

(** [s.endswith(suffix)]. *)
Definition endswith (s suffix : string) : bool :=
  (String.length suffix <=? String.length s)%nat &&
  String.eqb (String.substring (String.length s - String.length suffix)
                               (String.length suffix) s) suffix.

(** The characters [int()] skips around a literal in ASCII text: tab, line
    feed, vertical tab, form feed, carriage return and the space. *)
Definition isspace (c : ascii) : bool :=
  let n := Ascii.nat_of_ascii c in
  ((9 <=? n) && (n <=? 13) || (n =? 32))%nat.

Fixpoint lstrip_ws (s : string) : string :=
  match s with
  | EmptyString => EmptyString
  | String a s' => if isspace a then lstrip_ws s' else s
  end.

Fixpoint rstrip_ws (s : string) : string :=
  match s with
  | EmptyString => EmptyString
  | String a s' =>
      match rstrip_ws s' with
      | EmptyString => if isspace a then EmptyString else String a EmptyString
      | r => String a r
      end
  end.

Definition isdigit (c : ascii) : bool :=
  let n := Ascii.nat_of_ascii c in ((48 <=? n) && (n <=? 57))%nat.

Definition digit (c : ascii) : Z := Z.of_nat (Ascii.nat_of_ascii c) - 48.

(** Decimal digits, single underscores allowed between two digits. *)
Fixpoint digits (acc : Z) (after_underscore : bool) (s : string) : option Z :=
  match s with
  | EmptyString => if after_underscore then None else Some acc
  | String c s' =>
      if isdigit c then digits (10 * acc + digit c) false s'
      else if Ascii.eqb c "_" then
             (if after_underscore then None else digits acc true s')
      else None
  end.

Definition unsigned (s : string) : option Z :=
  match s with
  | EmptyString => None
  | String c _ => if isdigit c then digits 0 false s else None
  end.

(** [int(s)] on ASCII text: surrounding white space, an optional sign,
    decimal digits.  [None] stands for [ValueError]; the interpreter's
    limit on the number of digits is not modelled. *)
Definition int (s : string) : option Z :=
  match rstrip_ws (lstrip_ws s) with
  | EmptyString => None
  | String c s' =>
      if Ascii.eqb c "-" then option_map Z.opp (unsigned s')
      else if Ascii.eqb c "+" then unsigned s'
      else unsigned (String c s')
  end.

(** [range(start, stop, step)] as the list it iterates over; [None] stands
    for the [ValueError] of a zero step. *)
Fixpoint iota (start step : Z) (n : nat) : list Z :=
  match n with
  | O => []
  | S n' => start :: iota (start + step) step n'
  end.

Definition range3 (start stop step : Z) : option (list Z) :=
  if step =? 0 then None
  else if 0 <? step
       then Some (iota start step (Z.to_nat ((stop - start + step - 1) / step)))
       else Some (iota start step (Z.to_nat ((start - stop - step - 1) / (- step)))).

(** [range(n)]. *)
Definition range (n : Z) : list Z := iota 0 1 (Z.to_nat n).

End Py.

(** ** Exceptions, diagnostics and the effect monad *)

Inductive exn : Type :=
| SystemExit (code : Z)
| OSError
| ValueError
| IndexError
| ZeroDivisionError
| OtherException.

Inductive axis : Type := AxisX | AxisY | AxisZ.

(** What the format arguments of a "failed to read" diagnostic show. *)
Inductive read_cause : Type :=
| Strerror
| ExcClass (e : exn).

(** One constructor per diagnostic the script prints on [stderr], with the
    values substituted into its format string. *)
Inductive message : Type :=
| UnexpectedEndOfInput (line_count : Z)
| FailedToReadLine (line_count : Z) (cause : read_cause)
| HeaderExpected (line_count : Z) (line : string)
| InvalidLiteral (line_count : Z) (line : string) (literal : string)
| ExpectingSixIntegers (line_count : Z) (line : string)
| SixIntegersFormat
| ExpectingFormat (line_count : Z) (line : string)
| ExpectedIndex (a : axis) (line_count : Z) (line : string) (expected : Z)
| UnitSizedBlocksOnly (line_count : Z) (line : string)
| PositiveBlockSizesOnly (line_count : Z) (line : string)
| BlockIsTooLarge (line_count : Z) (line : string)
| EarlierChunk (line_count : Z) (line : string) (before_line : Z)
| CrossesParentBoundary (a : axis) (line_count : Z) (line : string)
| MoreBlocksThanReference (from_line : Z)
| BlockMissing (x y z : Z)
| BlockShouldBe (x y z : Z) (domain : string) (line_count : Z) (expected : string)
| ItemNotFound (path : string)
| WrongExtension (path : string)
| InputNotFound (path : string)
| BaselineFailed
| ItemExited (path : string) (status : Z)
| ConsoleShowing
| ItemStderr (contents : string).

Inductive result (A : Type) : Type :=
| Ok (a : A)
| Raise (e : exn)
| Timeout.
Arguments Ok {A} a.
Arguments Raise {A} e.
Arguments Timeout {A}.

(** A computation yields the diagnostics it printed and how it ended;
    [Timeout] is the exhaustion of the fuel bounding a [while True]. *)
Definition M (A : Type) : Type := (list message * result A)%type.

Definition ret {A} (a : A) : M A := ([], Ok a).

Definition bind {A B} (m : M A) (f : A -> M B) : M B :=
  match m with
  | (out, Ok a) => let (out', r) := f a in (out ++ out', r)
  | (out, Raise e) => (out, Raise e)
  | (out, Timeout) => (out, Timeout)
  end.

Definition raise {A} (e : exn) : M A := ([], Raise e).
Definition print (m : message) : M unit := ([m], Ok tt).

Declare Scope py_scope.
Delimit Scope py_scope with py.
Notation "x <- m ;; k" := (bind m (fun x => k))
  (at level 61, m at next level, right associativity) : py_scope.
Notation "' p <- m ;; k" := (bind m (fun x => match x with p => k end))
  (at level 61, p pattern, m at next level, right associativity) : py_scope.
Notation "m ;;; k" := (bind m (fun _ => k))
  (at level 61, right associativity) : py_scope.
Local Open Scope py_scope.

(** [sys.exit(code)]. *)
Definition sys_exit {A} (code : Z) : M A := raise (SystemExit code).

(** [print(msg, file=stderr); sys.exit(code)]. *)
Definition die {A} (code : Z) (msg : message) : M A :=
  print msg ;;; sys_exit code.

(** [try: body / except ...: handler]: the handler receives whatever the
    body raised. *)
Definition try_except {A} (body : M A) (handler : exn -> M A) : M A :=
  match body with
  | (out, Raise e) => let (out', r) := handler e in (out ++ out', r)
  | r => r
  end.

(** [a // b] and [a / b] on ints. *)
Definition floordiv (a b : Z) : M Z :=
  if b =? 0 then raise ZeroDivisionError else ret (a / b).

Definition truediv (a b : Z) : M Q :=
  if b =? 0 then raise ZeroDivisionError else ret (inject_Z a / inject_Z b)%Q.

(** [l[i]] for a non-negative constant [i]. *)
Definition item (l : list Z) (i : nat) : M Z :=
  match nth_error l i with
  | Some v => ret v
  | None => raise IndexError
  end.

(** [[int(i) for i in fields]]: the first bad literal raises. *)
Fixpoint ints_of (fields : list string) : list Z + string :=
  match fields with
  | [] => inl []
  | f :: fields' =>
      match Py.int f with
      | None => inr f
      | Some v =>
          match ints_of fields' with
          | inl vs => inl (v :: vs)
          | inr bad => inr bad
          end
      end
  end.

(** Short-circuit [a or b] on conditions that may raise. *)
Definition or_else (a b : M bool) : M bool :=
  x <- a ;; if x then ret true else b.

(** ** Text files *)

(** What one [readline()] call delivers: a line (with its terminator), or
    an exception.  Past the end of the stream [readline()] returns ['']. *)
Inductive read_event : Type :=
| Line (line : string)
| Fails (e : exn).

Definition file : Type := list read_event.

Definition readline (f : file) : M (string * file) :=
  match f with
  | [] => ret (EmptyString, [])
  | Line line :: f' => ret (line, f')
  | Fails e :: _ => raise e
  end.

(** A file holding the given lines, each terminated by a newline. *)
Definition text (lines : list string) : file :=
  map (fun l => Line (l ++ Py.nl)%string) lines.

(** ** The functions of [runner.py] *)

(** A block as the parsers return it: [x, y, z, sx, sy, sz, domain]. *)
Record block : Type := Block {
  bx : Z; by_ : Z; bz : Z;
  bsx : Z; bsy : Z; bsz : Z;
  bdomain : string
}.

(** The two [except] clauses shared by the readers: [except OSError] exits
    with 200, the bare [except:] catches everything else and exits with 300. *)
Definition read_failed {A} (line_count : Z) (e : exn) : M A :=
  match e with
  | OSError => die 200 (FailedToReadLine line_count Strerror)
  | _ => die 300 (FailedToReadLine line_count (ExcClass e))
  end.

Definition parse_line1_of_file1 (line : string) (line_count : Z) : M (list Z) :=
  match line with
  | EmptyString => raise IndexError
  | String c _ =>
      if negb (Ascii.eqb c "#") then die 1 (HeaderExpected line_count line)
      else
        match ints_of (Py.split "," (Py.slice_from 1 line)) with
        | inr bad => die 1 (InvalidLiteral line_count line bad)
        | inl ints =>
            if negb (Z.of_nat (List.length ints) =? 6) then
              print (ExpectingSixIntegers line_count line) ;;;
              print SixIntegersFormat ;;;
              sys_exit 1
            else ret ints
        end
  end.

(** The [sys.exit(100)] is raised inside the [try], so the bare [except:]
    below it handles it like any other exception. *)
Definition get_header_info_of_file1 (file1 : file) (line_count : Z)
  : M (list Z * file) :=
  '(line, file1) <-
     try_except
       ('(line, file1) <- readline file1 ;;
        if String.eqb line EmptyString then die 100 (UnexpectedEndOfInput line_count)
        else ret (line, file1))
       (read_failed line_count) ;;
  ints <- parse_line1_of_file1 line line_count ;;
  ret (ints, file1).

(** The [while True] loop reads on past comment and blank lines.  Only
    [readline()] can raise inside the [try]; the handlers see the value
    [line_count] has at that moment. *)
Fixpoint read_next_line_of_input (f : file) (line_count : Z)
  : M (string * Z * file) :=
  match f with
  | [] => ret (EmptyString, line_count + 1, [])
  | Fails e :: _ => read_failed line_count e
  | Line line :: f' =>
      let line_count := line_count + 1 in
      match line with
      | EmptyString => ret (line, line_count, f')
      | String c _ =>
          if Ascii.eqb c "#" || Ascii.eqb c Py.LF || Ascii.eqb c Py.CR
          then read_next_line_of_input f' line_count
          else ret (line, line_count, f')
      end
  end.

Definition file_format_error_and_exit {A} (line : string) (line_count : Z) : M A :=
  die 1 (ExpectingFormat line_count line).

(** The characters [.strip("' \n\r")] removes. *)
Definition strip_chars : string :=
  String "'" (String " " (String Py.LF (String Py.CR EmptyString))).

(** [domains[domain] = domains.get(domain, 0) + 1] on a dict kept as an
    association list. *)
Fixpoint dict_get (d : list (string * Z)) (k : string) (default : Z) : Z :=
  match d with
  | [] => default
  | (k', v) :: d' => if String.eqb k k' then v else dict_get d' k default
  end.

Fixpoint dict_set (d : list (string * Z)) (k : string) (v : Z) : list (string * Z) :=
  match d with
  | [] => [(k, v)]
  | (k', v') :: d' =>
      if String.eqb k k' then (k, v) :: d' else (k', v') :: dict_set d' k v
  end.

Definition parse_and_check_line_of_file1 (x y z : Z) (line : string)
    (line_count : Z) (domains : list (string * Z))
  : M (block * list (string * Z)) :=
  let last_comma := Py.rfind "," line in
  if last_comma =? -1 then file_format_error_and_exit line line_count
  else
    let domain := Py.strip strip_chars (Py.slice_from (last_comma + 1) line) in
    let domains := dict_set domains domain (dict_get domains domain 0 + 1) in
    match ints_of (Py.split "," (Py.slice_to last_comma line)) with
    | inr bad => die 1 (InvalidLiteral line_count line bad)
    | inl ints =>
        i0 <- item ints 0 ;;
        if negb (i0 =? x) then die 1 (ExpectedIndex AxisX line_count line x) else
        i1 <- item ints 1 ;;
        if negb (i1 =? y) then die 1 (ExpectedIndex AxisY line_count line y) else
        i2 <- item ints 2 ;;
        if negb (i2 =? z) then die 1 (ExpectedIndex AxisZ line_count line z) else
        not_unit <-
          or_else (v <- item ints 3 ;; ret (negb (v =? 1)))
            (or_else (v <- item ints 4 ;; ret (negb (v =? 1)))
                     (v <- item ints 5 ;; ret (negb (v =? 1)))) ;;
        if not_unit then die 1 (UnitSizedBlocksOnly line_count line) else
        i3 <- item ints 3 ;; i4 <- item ints 4 ;; i5 <- item ints 5 ;;
        ret (Block i0 i1 i2 i3 i4 i5 domain, domains)
    end.

Definition parse_line (line : string) (line_count : Z)
    (parent_size_x parent_size_y parent_size_z : Z) : M block :=
  let last_comma := Py.rfind "," line in
  if last_comma =? -1 then file_format_error_and_exit line line_count
  else
    let domain := Py.strip strip_chars (Py.slice_from (last_comma + 1) line) in
    match ints_of (Py.split "," (Py.slice_to last_comma line)) with
    | inr bad => die 1 (InvalidLiteral line_count line bad)
    | inl ints =>
        negative <-
          or_else (v <- item ints 3 ;; ret (v <? 0))
            (or_else (v <- item ints 4 ;; ret (v <? 0))
                     (v <- item ints 5 ;; ret (v <? 0))) ;;
        if negative then die 1 (PositiveBlockSizesOnly line_count line) else
        too_large <-
          or_else (v <- item ints 3 ;; ret (parent_size_x <? v))
            (or_else (v <- item ints 4 ;; ret (parent_size_y <? v))
                     (v <- item ints 5 ;; ret (parent_size_z <? v))) ;;
        if too_large then die 1 (BlockIsTooLarge line_count line) else
        i0 <- item ints 0 ;; i1 <- item ints 1 ;; i2 <- item ints 2 ;;
        i3 <- item ints 3 ;; i4 <- item ints 4 ;; i5 <- item ints 5 ;;
        ret (Block i0 i1 i2 i3 i4 i5 domain)
    end.

(** *** The chunk list *)

(** An exploded sub-block [[x, y, z, domain, line_count]]. *)
Record entry : Type := Entry {
  ex : Z; ey : Z; ez : Z;
  edomain : string;
  eline : Z
}.

(** The three nested [for] loops over [range(zs2)], [range(ys2)] and
    [range(xs2)], in the order they append. *)
Definition explode (b : block) (line_count : Z) : list entry :=
  flat_map (fun sz =>
    flat_map (fun sy =>
      map (fun sx =>
             Entry (bx b + sx) (by_ b + sy) (bz b + sz) (bdomain b) line_count)
          (Py.range (bsx b)))
      (Py.range (bsy b)))
    (Py.range (bsz b)).

(** [itemgetter(2,1,0)] and the order of the tuples it returns. *)
Definition sort_key (e : entry) : Z * Z * Z := (ez e, ey e, ex e).

Definition key_leb (k1 k2 : Z * Z * Z) : bool :=
  let '(z1, y1, x1) := k1 in
  let '(z2, y2, x2) := k2 in
  (z1 <? z2) || ((z1 =? z2) && ((y1 <? y2) || ((y1 =? y2) && (x1 <=? x2)))).

(** [chunk_list.sort(key=...)] is a stable sort; every stable sort returns
    the same list, computed here by insertion. *)
Fixpoint insert (e : entry) (l : list entry) : list entry :=
  match l with
  | [] => [e]
  | e' :: l' =>
      if key_leb (sort_key e) (sort_key e') then e :: l else e' :: insert e l'
  end.

Fixpoint sort (l : list entry) : list entry :=
  match l with
  | [] => []
  | e :: l' => insert e (sort l')
  end.

(** *** The analysis of the two files *)

(** The variables of the script that live across the chunk loop. *)
Record state : Type := State {
  file1 : file;
  line_count_f1 : Z;
  file2 : file;
  line_f2 : string;
  line_count_f2 : Z;
  line_count_f2_last_chunk_end : Z;
  block_count_f2 : Z
}.

Section Chunks.

Variables parent_size_x parent_size_y parent_size_z : Z.

(** The [while True] loop that reads one chunk of file2 (lines 333-384).
    Every iteration that does not leave the loop reads at least one more
    line of file2, which bounds the iterations by the fuel [main] gives. *)
Fixpoint read_chunk (fuel : nat) (z : Z) (st : state) (chunk_list : list entry)
  : M (state * list entry) :=
  match fuel with
  | O => ([], Timeout)
  | S fuel' =>
      b <- parse_line (line_f2 st) (line_count_f2 st)
             parent_size_x parent_size_y parent_size_z ;;
      if bz b <? z then
        die 1 (EarlierChunk (line_count_f2 st) (line_f2 st)
                 (line_count_f2_last_chunk_end st - 1))
      else
      qx <- floordiv (bx b) parent_size_x ;;
      qx' <- floordiv (bx b + bsx b - 1) parent_size_x ;;
      if negb (qx =? qx') then
        die 1 (CrossesParentBoundary AxisX (line_count_f2 st) (line_f2 st))
      else
      qy <- floordiv (by_ b) parent_size_y ;;
      qy' <- floordiv (by_ b + bsy b - 1) parent_size_y ;;
      if negb (qy =? qy') then
        die 1 (CrossesParentBoundary AxisY (line_count_f2 st) (line_f2 st))
      else
      qz <- floordiv (bz b) parent_size_z ;;
      qz' <- floordiv (bz b + bsz b - 1) parent_size_z ;;
      if negb (qz =? qz') then
        die 1 (CrossesParentBoundary AxisZ (line_count_f2 st) (line_f2 st))
      else
      if z + parent_size_z - 1 <? bz b then
        ret (State (file1 st) (line_count_f1 st) (file2 st) (line_f2 st)
               (line_count_f2 st) (line_count_f2 st) (block_count_f2 st),
             chunk_list)
      else
        let block_count_f2' := block_count_f2 st + 1 in
        let chunk_list := chunk_list ++ explode b (line_count_f2 st) in
        '(line, line_count, f2) <-
           read_next_line_of_input (file2 st) (line_count_f2 st) ;;
        let st' := State (file1 st) (line_count_f1 st) f2 line line_count
                     (line_count_f2_last_chunk_end st) block_count_f2' in
        if String.eqb line EmptyString then ret (st', chunk_list)
        else read_chunk fuel' z st' chunk_list
  end.

(** The [for e in chunk_list] loop that compares a sorted chunk with the
    next lines of file1 (lines 391-426); it returns file1 and its line
    count as the loop leaves them. *)
Fixpoint check_chunk (chunk_list : list entry) (f1 : file) (line_count : Z)
  : M (file * Z) :=
  match chunk_list with
  | [] => ret (f1, line_count)
  | e :: rest =>
      '(line, line_count, f1) <- read_next_line_of_input f1 line_count ;;
      if String.eqb line EmptyString then die 1 (MoreBlocksThanReference (eline e))
      else
        b <- parse_line line line_count 1 1 1 ;;
        if negb (ex e =? bx b) || negb (ey e =? by_ b) || negb (ez e =? bz b)
        then die 1 (BlockMissing (bx b) (by_ b) (bz b))
        else if negb (String.eqb (edomain e) (bdomain b))
        then die 1 (BlockShouldBe (bx b) (by_ b) (bz b)
                      (edomain e) (eline e) (bdomain b))
        else check_chunk rest f1 line_count
  end.

(** One iteration of [for z in range(0, z_count, parent_size_z)]. *)
Definition chunk_body (z : Z) (st : state) : M state :=
  '(st, chunk_list) <- read_chunk (S (List.length (file2 st))) z st [] ;;
  let chunk_list := sort chunk_list in
  '(f1, line_count) <- check_chunk chunk_list (file1 st) (line_count_f1 st) ;;
  ret (State f1 line_count (file2 st) (line_f2 st) (line_count_f2 st)
         (line_count_f2_last_chunk_end st) (block_count_f2 st)).

Fixpoint chunk_loop (zs : list Z) (st : state) : M state :=
  match zs with
  | [] => ret st
  | z :: zs' => st <- chunk_body z st ;; chunk_loop zs' st
  end.

End Chunks.

(** Lines 302-429: the header, the chunk loop and the compression. *)
Definition analyse (f1 f2 : file) : M Q :=
  let line_count_f1 := 1 in
  '(ints, f1) <- get_header_info_of_file1 f1 line_count_f1 ;;
  x_count <- item ints 0 ;;
  y_count <- item ints 1 ;;
  z_count <- item ints 2 ;;
  let block_count_f1 := x_count * y_count * z_count in
  parent_size_x <- item ints 3 ;;
  parent_size_y <- item ints 4 ;;
  parent_size_z <- item ints 5 ;;
  '(line, line_count, f2) <- read_next_line_of_input f2 0 ;;
  if String.eqb line EmptyString then die 100 (UnexpectedEndOfInput line_count)
  else
    match Py.range3 0 z_count parent_size_z with
    | None => raise ValueError
    | Some zs =>
        st <- chunk_loop parent_size_x parent_size_y parent_size_z zs
                (State f1 line_count_f1 f2 line line_count 0 0) ;;
        truediv (block_count_f1 - block_count_f2 st) block_count_f1
    end.

(** *** The whole script *)

(** What a run depends on: the command line, the file system, the exit
    statuses and the measured durations of the processes it starts, and
    the contents of the files it opens. *)
Record env : Type := Env {
  path_to_item_under_test : string;
  path_to_block_model_input_csv : string;
  speed : bool;
  isfile : string -> bool;
  baseline_warm_up_returncode : Z;
  baseline_timed_returncode : Z;
  baseline_time : Q;
  item_returncode : Z;
  item_under_test_time : Q;
  err_txt : string;
  input_csv : file;
  out_csv : file
}.

(** [a / b] on the two measured durations. *)
Definition truediv_time (a b : Q) : M Q :=
  if Qeq_bool b 0 then raise ZeroDivisionError else ret (a / b)%Q.

(** [block_count_f1 / seconds] among the arguments of the narration of the
    speed: the quotient goes to [stdvout] only, but the division is
    evaluated, and it raises when the duration is 0. *)
Definition narrated_rate (seconds : Q) : M unit :=
  if Qeq_bool seconds 0 then raise ZeroDivisionError else ret tt.

(** The script from its first check to its last [print]; the value is what
    it wrote to [stdout]. *)
Definition main (e : env) : M (list Q) :=
  if negb (isfile e (path_to_item_under_test e)) then
    die 10 (ItemNotFound (path_to_item_under_test e))
  else if negb (Py.endswith (path_to_item_under_test e) ".py"
                || Py.endswith (path_to_item_under_test e) ".exe") then
    die 11 (WrongExtension (path_to_item_under_test e))
  else if negb (isfile e (path_to_block_model_input_csv e)) then
    die 12 (InputNotFound (path_to_block_model_input_csv e))
  else
    (if speed e then
       if negb (baseline_warm_up_returncode e =? 0) then die 13 BaselineFailed
       else if negb (baseline_timed_returncode e =? 0) then die 13 BaselineFailed
       else ret tt
     else ret tt) ;;;
    (if negb (item_returncode e =? 0) then
       print (ItemExited (path_to_item_under_test e) (item_returncode e)) ;;;
       print ConsoleShowing ;;;
       print (ItemStderr (err_txt e)) ;;;
       sys_exit 14
     else ret tt) ;;;
    compression <- analyse (input_csv e) (out_csv e) ;;
    if speed e then
      speed_ <- truediv_time (baseline_time e) (item_under_test_time e) ;;
      narrated_rate (item_under_test_time e) ;;;
      narrated_rate (baseline_time e) ;;;
      ret [compression; speed_]
    else ret [compression].

(** The exit status of the process: 0 when the script runs to its end, the
    argument of [sys.exit], and 1 for an exception nothing catches. *)
Definition exit_status {A} (r : result A) : option Z :=
  match r with
  | Ok _ => Some 0
  | Raise (SystemExit code) => Some code
  | Raise _ => Some 1
  | Timeout => None
  end.

(** ** Concrete runs *)

(** A run without [--speed] in which the item under test exists, has the
    right extension and exits with status 0: [input] is the reference
    file and [out] what the item wrote. *)
Definition plain_run (input out : file) : M (list Q) :=
  main {| path_to_item_under_test := "algo.py";
          path_to_block_model_input_csv := "model.csv";
          speed := false;
          isfile := fun _ => true;
          baseline_warm_up_returncode := 0;
          baseline_timed_returncode := 0;
          baseline_time := 1;
          item_returncode := 0;
          item_under_test_time := 1;
          err_txt := EmptyString;
          input_csv := input;
          out_csv := out |}.

(** The double quote character. *)
Definition dq : ascii := Ascii.ascii_of_nat 34.
Definition dquoted (s : string) : string :=
  String dq (s ++ String dq EmptyString)%string.

(** A 2x2x2 grid of "ore" with parent blocks 2x2x1. *)
Definition ore_ref : file := text ["# 2,2,2,2,2,1";
  "0,0,0,1,1,1,ore"; "1,0,0,1,1,1,ore"; "0,1,0,1,1,1,ore"; "1,1,0,1,1,1,ore";
  "0,0,1,1,1,1,ore"; "1,0,1,1,1,1,ore"; "0,1,1,1,1,1,ore"; "1,1,1,1,1,1,ore"].
Definition ore_out : file := text ["0,0,0,2,2,1,'ore'"; "0,0,1,2,2,1,'ore'"].

(** A 2x1x1 grid and an output that stops after its first cell. *)
Definition short_ref : file :=
  text ["# 2,1,1,2,1,1"; "0,0,0,1,1,1,a"; "1,0,0,1,1,1,a"].
Definition short_out : file := text ["0,0,0,1,1,1,a"].

(** A one-cell grid, and outputs for it. *)
Definition cell_ref : file := text ["# 1,1,1,1,1,1"; "0,0,0,1,1,1,a"].
Definition cell_out : file := text ["0,0,0,1,1,1,a"].
Definition stray_out : file := text ["0,0,0,1,1,1,a"; "5,5,5,1,1,1,a"].

(** A reference whose only data line has size fields 0. *)
Definition sizeless_ref : file := text ["# 1,1,1,1,1,1"; "0,0,0,0,0,0,a"].

(** A header with no cells. *)
Definition empty_grid_ref : file := text ["# 0,0,0,1,1,1"].

(** One cell under parent blocks 2x2x2, and an output padded with two empty
    blocks. *)
Definition padded_ref : file := text ["# 1,1,1,2,2,2"; "0,0,0,1,1,1,a"].
Definition padded_out : file :=
  text ["0,0,0,1,1,1,a"; "1,0,0,0,1,1,a"; "1,0,0,0,1,1,a"].

(** Two cells under one parent block 2x1x1, and an output that merges them
    into one block and adds three records without cells. *)
Definition row_ref : file :=
  text ["# 2,1,1,2,1,1"; "0,0,0,1,1,1,a"; "1,0,0,1,1,1,a"].
Definition row_out : file :=
  text ["0,0,0,2,1,1,a"; "1,0,0,0,1,1,a"; "1,0,0,0,1,1,a"; "1,0,0,0,1,1,a"].

(** The same label in double quotes and in apostrophes. *)
Definition dquoted_ref : file :=
  text ["# 1,1,1,1,1,1"; ("0,0,0,1,1,1," ++ dquoted "ore")%string].
Definition quoted_out : file := text ["0,0,0,1,1,1,'ore'"].

(** A candidate state whose current line lies beyond the slab at 0 and
    crosses a parent boundary in x (parent blocks 2x1x1). *)
Definition beyond_crossing : state :=
  State [] 1 [] ("1,0,1,2,1,1,a" ++ Py.nl)%string 1 0 0.

(** Candidate states at the start of a chunk, with one line pending and
    nothing more to read: a block of the second slab, a block that crosses
    in x under parent blocks of width 2, and a block without cells. *)
Definition pending (line : string) : state :=
  State [] 1 [] (line ++ Py.nl)%string 1 0 0.

Definition second_slab_block : state := pending "0,0,1,1,1,1,a".
Definition crossing_block : state := pending "1,0,0,2,1,1,a".
Definition empty_block : state := pending "1,0,0,0,1,1,a".

(** A reference that labels the only cell "waste". *)
Definition waste_ref_body : file := text ["0,0,0,1,1,1,waste"].

(** ** Vocabulary of the specification *)

(** The lines a reader hands out: those [read_next_line_of_input] does not
    skip. *)
Definition skipped (line : string) : bool :=
  match line with
  | EmptyString => false
  | String c _ => Ascii.eqb c "#" || Ascii.eqb c Py.LF || Ascii.eqb c Py.CR
  end.

Fixpoint data_lines (f : file) : list string :=
  match f with
  | [] => []
  | Line line :: f' => if skipped line then data_lines f' else line :: data_lines f'
  | Fails _ :: f' => data_lines f'
  end.

(** A stream every read of which succeeds with a non-empty line until its
    end, as a text file on a healthy disk is. *)
Definition readable (f : file) : Prop :=
  Forall (fun ev => match ev with
                    | Line line => line <> EmptyString
                    | Fails _ => False
                    end) f.

(** A unit cell with its label, and the cells of a block and of an entry. *)
Definition cell : Type := (Z * Z * Z * string)%type.

Definition cell_of_entry (e : entry) : cell := (ex e, ey e, ez e, edomain e).
Definition cell_of_block (b : block) : cell := (bx b, by_ b, bz b, bdomain b).
Definition cells_of_block (b : block) : list cell :=
  map cell_of_entry (explode b 0).

Definition cell_key (c : cell) : Z * Z * Z :=
  let '(x, y, z, _) := c in (z, y, x).

Definition key_ltb (k1 k2 : Z * Z * Z) : bool := negb (key_leb k2 k1).

(** Weakly and strictly ascending sort keys. *)
Definition cell_le (a b : cell) : Prop := key_leb (cell_key a) (cell_key b) = true.
Definition cell_lt (a b : cell) : Prop := key_ltb (cell_key a) (cell_key b) = true.

Definition key_le (a b : entry) : Prop := key_leb (sort_key a) (sort_key b) = true.

(** The exit statuses the script passes to [sys.exit], with 0 for a run
    that reaches its end and 1 for an exception nothing catches. *)
Definition exit_codes : list Z := [0; 1; 10; 11; 12; 13; 14; 100; 200; 300].

(** A computation that ends, and if with [sys.exit] then with one of the
    statuses above. *)
Definition sound {A} (m : M A) : Prop :=
  match snd m with
  | Timeout => False
  | Raise (SystemExit code) => In code exit_codes
  | _ => True
  end.

(** A computation that prints only when it fails. *)
Definition quiet {A} (m : M A) : Prop :=
  forall out a, m = (out, Ok a) -> out = [].

(** The order of the reference file on coordinates [(x, y, z)]. *)
Definition coords_lt (c1 c2 : Z * Z * Z) : Prop :=
  let '(x1, y1, z1) := c1 in
  let '(x2, y2, z2) := c2 in
  key_ltb (z1, y1, x1) (z2, y2, x2) = true.

(** A computation that ends, and if with [sys.exit] then with one of
    [codes]. *)
Definition exits_within {A} (codes : list Z) (m : M A) : Prop :=
  match snd m with
  | Timeout => False
  | Raise (SystemExit code) => In code codes
  | _ => True
  end.

(** The statuses the analysis of the two files passes to [sys.exit]. *)
Definition analysis_codes : list Z := [1; 100; 200; 300].

(** The tests of the command line and of the processes, in the order of the
    script. *)
Definition item_found (e : env) : bool := isfile e (path_to_item_under_test e).

Definition extension_ok (e : env) : bool :=
  Py.endswith (path_to_item_under_test e) ".py"
  || Py.endswith (path_to_item_under_test e) ".exe".

Definition input_found (e : env) : bool :=
  isfile e (path_to_block_model_input_csv e).

Definition baseline_ok (e : env) : bool :=
  negb (speed e)
  || ((baseline_warm_up_returncode e =? 0) && (baseline_timed_returncode e =? 0)).

(** Strictly ascending [(z, y, x)] order on entries. *)
Definition zyx_lt (a b : entry) : Prop := key_ltb (sort_key a) (sort_key b) = true.

(** Every character of [s] is one of [chars]. *)
Fixpoint all_in (chars s : string) : bool :=
  match s with
  | EmptyString => true
  | String a s' => Py.mem a chars && all_in chars s'
  end.

(** Ascending [(z, y, x)] order, spelled out. *)
Definition zyx_le (a b : entry) : Prop :=
  ez a < ez b \/
  (ez a = ez b /\ (ey a < ey b \/ (ey a = ey b /\ ex a <= ex b))).

(** The coordinates of a grid in the order of the reference file. *)
Definition grid (x_count y_count z_count : Z) : list (Z * Z * Z) :=
  flat_map (fun z =>
    flat_map (fun y => map (fun x => (x, y, z)) (Py.range x_count))
             (Py.range y_count))
    (Py.range z_count).

(** An entry and a reference block agree in position and label. *)
Definition same_position (e : entry) (b : block) : Prop :=
  ex e = bx b /\ ey e = by_ b /\ ez e = bz b.

Definition same_block (e : entry) (b : block) : Prop :=
  same_position e b /\ edomain e = bdomain b.

(** The next [n] records of the reference reader, with the stream and the
    line count it is left at; [None] when the reader cannot deliver [n]
    records (end of input, read error, or a line that does not parse). *)
Fixpoint next_unit_blocks (n : nat) (f1 : file) (line_count : Z)
  : option (list block * file * Z) :=
  match n with
  | O => Some ([], f1, line_count)
  | S n' =>
      match read_next_line_of_input f1 line_count with
      | (_, Ok (line, line_count, f1)) =>
          if String.eqb line EmptyString then None
          else
            match parse_line line line_count 1 1 1 with
            | (_, Ok b) =>
                match next_unit_blocks n' f1 line_count with
                | Some (bs, f1, line_count) => Some (b :: bs, f1, line_count)
                | None => None
                end
            | _ => None
            end
      | _ => None
      end
  end.

Section Vocabulary.

Variables parent_size_x parent_size_y parent_size_z : Z.

(** [line] is the text of block [b]. *)
Definition parses (line : string) (b : block) : Prop :=
  forall line_count,
    parse_line line line_count parent_size_x parent_size_y parent_size_z = ret b.

(** A reader whose current line is [line] and whose stream is [f] will hand
    out exactly the blocks [blocks] and then reach the end of its input. *)
Definition presents (line : string) (f : file) (blocks : list block) : Prop :=
  readable f /\
  match blocks with
  | [] => line = EmptyString
  | b :: bs => line <> EmptyString /\ parses line b /\ Forall2 parses (data_lines f) bs
  end.

(** The box of [b] meets two parent blocks along an axis, as the script
    tests it. *)
Definition crosses (parent start size : Z) : bool :=
  negb (start / parent =? (start + size - 1) / parent).

Definition crosses_some (b : block) : bool :=
  crosses parent_size_x (bx b) (bsx b) ||
  crosses parent_size_y (by_ b) (bsy b) ||
  crosses parent_size_z (bz b) (bsz b).

(** The first axis, in the order x, y, z, along which [b] crosses. *)
Definition first_crossing (b : block) : option axis :=
  if crosses parent_size_x (bx b) (bsx b) then Some AxisX
  else if crosses parent_size_y (by_ b) (bsy b) then Some AxisY
  else if crosses parent_size_z (bz b) (bsz b) then Some AxisZ
  else None.

(** [b] lies in the slab that starts at [z], respectively beyond it, and
    in one parent block. *)
Definition in_slab (z : Z) (b : block) : Prop :=
  z <= bz b <= z + parent_size_z - 1 /\ crosses_some b = false.

Definition beyond_slab (z : Z) (b : block) : Prop :=
  z + parent_size_z - 1 < bz b /\ crosses_some b = false.

(** The cells and the blocks that start at or below the last layer of
    the slab at [z]. *)
Definition cell_in_slab (z : Z) (c : cell) : bool :=
  let '(_, _, z', _) := c in z' <=? z + parent_size_z - 1.

Definition block_in_slab (z : Z) (b : block) : bool :=
  bz b <=? z + parent_size_z - 1.

(** A merged block record as the candidate is meant to write it: every
    size between 0 and the size of the parent blocks, and a box inside one
    parent block. *)
Definition valid_block (b : block) : Prop :=
  0 <= bsx b <= parent_size_x /\
  0 <= bsy b <= parent_size_y /\
  0 <= bsz b <= parent_size_z /\
  crosses_some b = false.

(** The blocks come in non-decreasing order of the slab they lie in. *)
Definition slab_ordered (blocks : list block) : Prop :=
  Sorted (fun a b => bz a / parent_size_z <= bz b / parent_size_z) blocks.

(** How the chunk loop consumes the two streams: at every slab origin of
    [zs] the candidate blocks of that slab, followed by a block beyond it
    or by the end of the input, against the reference cells they cover. *)
Inductive plan : list Z -> list block -> list block -> Prop :=
| plan_done : plan [] [] []
| plan_slab z zs good rest cur refs :
    good <> [] ->
    Forall (in_slab z) good ->
    match rest with [] => True | b :: _ => beyond_slab z b end ->
    Permutation (flat_map cells_of_block good) (map cell_of_block cur) ->
    StronglySorted cell_lt (map cell_of_block cur) ->
    plan zs rest refs ->
    plan (z :: zs) (good ++ rest) (cur ++ refs).

End Vocabulary.

Definition coords (b : block) : Z * Z * Z := (bx b, by_ b, bz b).

Definition unit_sized (b : block) : Prop := bsx b = 1 /\ bsy b = 1 /\ bsz b = 1.

(** The box of [b] has at least one cell: every size is at least 1. *)
Definition has_cells (b : block) : Prop := 1 <= bsx b /\ 1 <= bsy b /\ 1 <= bsz b.

(** The box of [b] lies within the bounds of the grid. *)
Definition within_grid (x_count y_count z_count : Z) (b : block) : Prop :=
  0 <= bx b /\ bx b + bsx b <= x_count /\
  0 <= by_ b /\ by_ b + bsy b <= y_count /\
  0 <= bz b /\ bz b + bsz b <= z_count.

(** The data lines of a reference file: one unit block per cell of the
    grid, in ascending [(z, y, x)] order. *)
Definition valid_reference (x_count y_count z_count : Z) (body : file)
    (refs : list block) : Prop :=
  readable body /\
  Forall2 (parses 1 1 1) (data_lines body) refs /\
  map coords refs = grid x_count y_count z_count /\
  Forall unit_sized refs.

(** The output of a candidate: valid merged block records within the
    grid, in slab order.  A record may have a size of 0 and then covers no
    cell. *)
Definition valid_candidate (x_count y_count z_count px py pz : Z) (out : file)
    (recs : list block) : Prop :=
  readable out /\
  Forall2 (parses px py pz) (data_lines out) recs /\
  Forall (valid_block px py pz) recs /\
  Forall (within_grid x_count y_count z_count) recs /\
  slab_ordered pz recs.

(** The two block lists encode the same labelled unit cells. *)
Definition same_cells (recs refs : list block) : Prop :=
  Permutation (flat_map cells_of_block recs) (map cell_of_block refs).

(** The checks before the analysis pass: the files are found, the baseline
    runs of [--speed] and the item under test exit with status 0. *)
Definition setup_passes (e : env) : Prop :=
  item_found e = true /\ extension_ok e = true /\ input_found e = true /\
  baseline_ok e = true /\ item_returncode e = 0.

(** With [--speed], neither measured duration is 0. *)
Definition durations_nonzero (e : env) : Prop :=
  speed e = true ->
  ~ (item_under_test_time e == 0)%Q /\ ~ (baseline_time e == 0)%Q.

(** What a successful run writes to [stdout]: the compression, and the
    speed after it with [--speed]. *)
Definition printed_values (e : env) (compression : Q) : list Q :=
  if speed e then [compression; (baseline_time e / item_under_test_time e)%Q]
  else [compression].

(** * Properties *)

(** ** Runs on concrete files *)

Example ore_run : plain_run ore_ref ore_out = ([], Ok [6 # 8]).
Proof. vm_compute. reflexivity. Qed.


(** The block of the second scenario of the specification is refused for
    its size, before the test for a crossing. *)
Example oversized_block :
  parse_line ("0,0,0,3,1,1,'ore'" ++ Py.nl)%string 1 2 2 1 =
    ([BlockIsTooLarge 1 ("0,0,0,3,1,1,'ore'" ++ Py.nl)%string], Raise (SystemExit 1)).
Proof. vm_compute. reflexivity. Qed.

(** An output that stops after the first of two slabs is refused, as a
    line of the wrong format. *)
Example truncated_run :
  plain_run ore_ref (text ["0,0,0,2,2,1,'ore'"]) =
    ([ExpectingFormat 2 EmptyString], Raise (SystemExit 1)).
Proof. vm_compute. reflexivity. Qed.

(** An empty output is an unexpected end of input, with status 100. *)
Example empty_output_run :
  plain_run ore_ref [] = ([UnexpectedEndOfInput 1], Raise (SystemExit 100)).
Proof. vm_compute. reflexivity. Qed.

(** ** The monad *)

Lemma bind_ret_l {A B} (a : A) (f : A -> M B) : bind (ret a) f = f a.
Proof. unfold bind, ret. destruct (f a). reflexivity. Qed.

Lemma bind_raise {A B} (out : list message) (e : exn) (f : A -> M B) :
  bind (out, Raise e) f = (out, Raise e).
Proof. reflexivity. Qed.

Lemma bind_die {A B} code msg (f : A -> M B) : bind (die code msg) f = die code msg.
Proof. reflexivity. Qed.

Lemma bind_ok_inv {A B} (m : M A) (f : A -> M B) out b :
  bind m f = (out, Ok b) ->
  exists out1 a out2, m = (out1, Ok a) /\ f a = (out2, Ok b) /\ out = out1 ++ out2.
Proof.
  destruct m as [out1 [a | e | ]]; simpl; try discriminate.
  destruct (f a) as [out2 r] eqn:E. intros H. inversion H; subst.
  exists out1, a, out2. auto.
Qed.

(** ** The readers *)

Lemma data_lines_nonempty f :
  readable f -> Forall (fun line => line <> EmptyString) (data_lines f).
Proof.
  induction 1 as [| ev f Hev _ IH]; simpl; [constructor |].
  destruct ev as [line | e]; [| contradiction].
  destruct (skipped line); auto.
Qed.

Lemma read_next_readable f : forall n,
  readable f ->
  exists n' f',
    read_next_line_of_input f n = ret (hd EmptyString (data_lines f), n', f') /\
    readable f' /\
    data_lines f' = tl (data_lines f) /\
    (data_lines f <> [] -> (List.length f' < List.length f)%nat).
Proof.
  induction f as [| ev f IH]; intros n Hr; simpl.
  - exists (n + 1), []. repeat split; auto. intros H; contradiction.
  - inversion Hr as [| ? ? Hev Hf]; subst.
    destruct ev as [line | e]; [| contradiction].
    destruct line as [| c line]; [contradiction |].
    cbn [skipped].
    destruct (Ascii.eqb c "#" || Ascii.eqb c Py.LF || Ascii.eqb c Py.CR).
    + destruct (IH (n + 1) Hf) as (n' & f' & E & R & D & L).
      exists n', f'. repeat split; auto. intros H. specialize (L H). lia.
    + exists (n + 1), f. repeat split; auto.
Qed.

(** ** One iteration of the loop that reads a chunk *)

Section ChunkFacts.

Variables px py pz : Z.
Hypothesis px_pos : 0 < px.
Hypothesis py_pos : 0 < py.
Hypothesis pz_pos : 0 < pz.

(** With a current line that parses, an iteration is the chain of tests of
    lines 341-384. *)
Lemma read_chunk_iter fuel z st chunk b :
  parse_line (line_f2 st) (line_count_f2 st) px py pz = ret b ->
  read_chunk px py pz (S fuel) z st chunk =
    if bz b <? z then
      die 1 (EarlierChunk (line_count_f2 st) (line_f2 st)
               (line_count_f2_last_chunk_end st - 1))
    else if crosses px (bx b) (bsx b) then
      die 1 (CrossesParentBoundary AxisX (line_count_f2 st) (line_f2 st))
    else if crosses py (by_ b) (bsy b) then
      die 1 (CrossesParentBoundary AxisY (line_count_f2 st) (line_f2 st))
    else if crosses pz (bz b) (bsz b) then
      die 1 (CrossesParentBoundary AxisZ (line_count_f2 st) (line_f2 st))
    else if z + pz - 1 <? bz b then
      ret (State (file1 st) (line_count_f1 st) (file2 st) (line_f2 st)
             (line_count_f2 st) (line_count_f2 st) (block_count_f2 st),
           chunk)
    else
      '(line, line_count, f2) <-
         read_next_line_of_input (file2 st) (line_count_f2 st) ;;
      let st' := State (file1 st) (line_count_f1 st) f2 line line_count
                   (line_count_f2_last_chunk_end st) (block_count_f2 st + 1) in
      if String.eqb line EmptyString
      then ret (st', chunk ++ explode b (line_count_f2 st))
      else read_chunk px py pz fuel z st' (chunk ++ explode b (line_count_f2 st)).
Proof.
  intros Hp. cbn [read_chunk]. rewrite Hp, bind_ret_l.
  destruct (bz b <? z); [reflexivity |].
  unfold floordiv, crosses.
  rewrite (proj2 (Z.eqb_neq px 0)), (proj2 (Z.eqb_neq py 0)),
    (proj2 (Z.eqb_neq pz 0)) by lia.
  rewrite ?bind_ret_l.
  destruct (negb (bx b / px =? (bx b + bsx b - 1) / px)); [reflexivity |].
  rewrite ?bind_ret_l.
  destruct (negb (by_ b / py =? (by_ b + bsy b - 1) / py)); [reflexivity |].
  rewrite ?bind_ret_l.
  destruct (negb (bz b / pz =? (bz b + bsz b - 1) / pz)); reflexivity.
Qed.

Lemma crosses_some_false b :
  crosses_some px py pz b = false ->
  crosses px (bx b) (bsx b) = false /\
  crosses py (by_ b) (bsy b) = false /\
  crosses pz (bz b) (bsz b) = false.
Proof.
  unfold crosses_some. intros H.
  apply orb_false_elim in H as [H Hz]. apply orb_false_elim in H as [Hx Hy]. auto.
Qed.

(** A block beyond the slab closes it. *)
Lemma read_chunk_close fuel z st chunk b :
  parse_line (line_f2 st) (line_count_f2 st) px py pz = ret b ->
  beyond_slab px py pz z b ->
  read_chunk px py pz (S fuel) z st chunk =
    ret (State (file1 st) (line_count_f1 st) (file2 st) (line_f2 st)
           (line_count_f2 st) (line_count_f2 st) (block_count_f2 st),
         chunk).
Proof.
  intros Hp [Hz Hc]. rewrite (read_chunk_iter _ _ _ _ _ Hp).
  destruct (crosses_some_false _ Hc) as (-> & -> & ->).
  rewrite (proj2 (Z.ltb_ge (bz b) z)) by lia.
  rewrite (proj2 (Z.ltb_lt (z + pz - 1) (bz b))) by lia.
  reflexivity.
Qed.

(** A block of the slab is counted and exploded, and the next line read. *)
Lemma read_chunk_take fuel z st chunk b :
  parse_line (line_f2 st) (line_count_f2 st) px py pz = ret b ->
  in_slab px py pz z b ->
  read_chunk px py pz (S fuel) z st chunk =
    '(line, line_count, f2) <-
       read_next_line_of_input (file2 st) (line_count_f2 st) ;;
    let st' := State (file1 st) (line_count_f1 st) f2 line line_count
                 (line_count_f2_last_chunk_end st) (block_count_f2 st + 1) in
    if String.eqb line EmptyString
    then ret (st', chunk ++ explode b (line_count_f2 st))
    else read_chunk px py pz fuel z st' (chunk ++ explode b (line_count_f2 st)).
Proof.
  intros Hp [Hz Hc]. rewrite (read_chunk_iter _ _ _ _ _ Hp).
  destruct (crosses_some_false _ Hc) as (-> & -> & ->).
  rewrite (proj2 (Z.ltb_ge (bz b) z)) by lia.
  rewrite (proj2 (Z.ltb_ge (z + pz - 1) (bz b))) by lia.
  reflexivity.
Qed.

Lemma map_flat_map {A B C} (f : B -> C) (g : A -> list B) (l : list A) :
  map f (flat_map g l) = flat_map (fun a => map f (g a)) l.
Proof.
  induction l as [| a l IH]; simpl; [reflexivity |].
  rewrite map_app, IH. reflexivity.
Qed.

(** The line number kept in an entry does not change its cell. *)
Lemma explode_cells b line_count :
  map cell_of_entry (explode b line_count) = cells_of_block b.
Proof.
  unfold cells_of_block, explode. rewrite !map_flat_map.
  apply flat_map_ext. intros sz. rewrite !map_flat_map.
  apply flat_map_ext. intros sy. rewrite !map_map. reflexivity.
Qed.

(** The loop takes the blocks of the slab at [z] up to the first block
    beyond it, or up to the end of the input. *)
Lemma read_chunk_good : forall good rest st chunk fuel z,
  presents px py pz (line_f2 st) (file2 st) (good ++ rest) ->
  good ++ rest <> [] ->
  Forall (in_slab px py pz z) good ->
  match rest with [] => True | b :: _ => beyond_slab px py pz z b end ->
  (List.length (file2 st) < fuel)%nat ->
  exists st' chunk',
    read_chunk px py pz fuel z st chunk = ret (st', chunk ++ chunk') /\
    presents px py pz (line_f2 st') (file2 st') rest /\
    file1 st' = file1 st /\
    line_count_f1 st' = line_count_f1 st /\
    block_count_f2 st' = block_count_f2 st + Z.of_nat (List.length good) /\
    map cell_of_entry chunk' = flat_map cells_of_block good.
Proof.
  induction good as [| g good IH]; intros rest st chunk fuel z Hpres Hne Hgood Hrest Hfuel.
  - simpl in *. destruct rest as [| b rest]; [congruence |].
    destruct Hpres as (Hr & Hl & Hp & Hf).
    destruct fuel as [| fuel]; [lia |].
    rewrite (read_chunk_close _ _ _ _ b (Hp _) Hrest).
    eexists _, []. rewrite app_nil_r. split; [reflexivity |].
    simpl. repeat split; auto. lia.
  - simpl app in Hpres. destruct Hpres as (Hr & Hl & Hp & Hf).
    inversion Hgood as [| ? ? Hg Hgood']; subst.
    destruct fuel as [| fuel]; [lia |].
    rewrite (read_chunk_take _ _ _ _ g (Hp _) Hg).
    destruct (read_next_readable (file2 st) (line_count_f2 st) Hr)
      as (n' & f' & E & R & D & L).
    rewrite E, bind_ret_l. cbv zeta.
    pose proof (data_lines_nonempty _ Hr) as Hnonempty.
    destruct (good ++ rest) as [| b0 bs] eqn:EG.
    + inversion Hf as [E0 |]. simpl hd.
      apply app_eq_nil in EG as [-> ->]. simpl String.eqb.
      eexists _, _. split; [reflexivity |].
      simpl. rewrite explode_cells, app_nil_r. repeat split; auto.
    + inversion Hf as [| l b0' ls bs' Hp0 Hf0 E0]; subst b0' bs'.
      rewrite <- E0 in D, L, Hnonempty. simpl hd. simpl tl in D.
      inversion Hnonempty as [| ? ? Hl0 _].
      rewrite (proj2 (String.eqb_neq l EmptyString) Hl0).
      edestruct (IH rest
        (State (file1 st) (line_count_f1 st) f' l n'
           (line_count_f2_last_chunk_end st) (block_count_f2 st + 1))
        (chunk ++ explode g (line_count_f2 st)) fuel z)
        as (st' & chunk' & Erun & Hpres' & Hf1 & Hlc1 & Hcount & Hcells).
      * rewrite EG. unfold presents. simpl. rewrite D. auto.
      * rewrite EG. discriminate.
      * assumption.
      * assumption.
      * simpl. assert (List.length f' < List.length (file2 st))%nat
          by (apply L; discriminate). lia.
      * exists st', (explode g (line_count_f2 st) ++ chunk').
        rewrite app_assoc. split; [exact Erun |].
        cbn [file1 line_count_f1 block_count_f2] in Hf1, Hlc1, Hcount.
        rewrite map_app, explode_cells, Hcells.
        change (List.length (g :: good)) with (S (List.length good)).
        rewrite Nat2Z.inj_succ.
        split; [exact Hpres' |]. repeat split; auto. lia.
Qed.

(** The loop works through the blocks of the slab that precede [b]. *)
Lemma read_chunk_prefix : forall good b rest st chunk fuel z,
  presents px py pz (line_f2 st) (file2 st) (good ++ b :: rest) ->
  Forall (in_slab px py pz z) good ->
  (List.length (file2 st) < fuel)%nat ->
  exists st' chunk' fuel',
    read_chunk px py pz fuel z st chunk
      = read_chunk px py pz (S fuel') z st' (chunk ++ chunk') /\
    presents px py pz (line_f2 st') (file2 st') (b :: rest) /\
    file1 st' = file1 st /\
    line_count_f1 st' = line_count_f1 st /\
    line_count_f2_last_chunk_end st' = line_count_f2_last_chunk_end st /\
    block_count_f2 st' = block_count_f2 st + Z.of_nat (List.length good) /\
    map cell_of_entry chunk' = flat_map cells_of_block good.
Proof.
  induction good as [| g good IH]; intros b rest st chunk fuel z Hpres Hgood Hfuel.
  - destruct fuel as [| fuel]; [lia |].
    exists st, [], fuel. rewrite app_nil_r.
    split; [reflexivity |]. split; [exact Hpres |].
    repeat split; auto. simpl. lia.
  - simpl app in Hpres. destruct Hpres as (Hr & Hl & Hp & Hf).
    inversion Hgood as [| ? ? Hg Hgood']; subst.
    destruct fuel as [| fuel]; [lia |].
    rewrite (read_chunk_take _ _ _ _ g (Hp _) Hg).
    destruct (read_next_readable (file2 st) (line_count_f2 st) Hr)
      as (n' & f' & E & R & D & L).
    rewrite E, bind_ret_l. cbv zeta.
    pose proof (data_lines_nonempty _ Hr) as Hnonempty.
    destruct (good ++ b :: rest) as [| b0 bs] eqn:EG;
      [destruct good; discriminate |].
    inversion Hf as [| l b0' ls bs' Hp0 Hf0 E0]; subst b0' bs'.
    rewrite <- E0 in D, L, Hnonempty. simpl hd. simpl tl in D.
    inversion Hnonempty as [| ? ? Hl0 _].
    rewrite (proj2 (String.eqb_neq l EmptyString) Hl0).
    edestruct (IH b rest
      (State (file1 st) (line_count_f1 st) f' l n'
         (line_count_f2_last_chunk_end st) (block_count_f2 st + 1))
      (chunk ++ explode g (line_count_f2 st)) fuel z)
      as (st' & chunk' & fuel' & Erun & Hpres' & Hf1 & Hlc1 & Hlce & Hcount & Hcells).
    + rewrite EG. unfold presents. simpl. rewrite D. auto.
    + assumption.
    + simpl. assert (List.length f' < List.length (file2 st))%nat
        by (apply L; discriminate). lia.
    + exists st', (explode g (line_count_f2 st) ++ chunk'), fuel'.
      rewrite app_assoc. split; [exact Erun |].
      cbn [file1 line_count_f1 block_count_f2 line_count_f2_last_chunk_end]
        in Hf1, Hlc1, Hcount, Hlce.
      rewrite map_app, explode_cells, Hcells.
      change (List.length (g :: good)) with (S (List.length good)).
      rewrite Nat2Z.inj_succ.
      split; [exact Hpres' |]. repeat split; auto. lia.
Qed.

(** An iteration whose block crosses a parent boundary ends the run. *)
Lemma first_crossing_some b :
  crosses_some px py pz b = true -> exists a, first_crossing px py pz b = Some a.
Proof.
  unfold crosses_some, first_crossing.
  destruct (crosses px (bx b) (bsx b)); [eauto |].
  destruct (crosses py (by_ b) (bsy b)); [eauto |].
  destruct (crosses pz (bz b) (bsz b)); [eauto | discriminate].
Qed.

Lemma read_chunk_crossing fuel z st chunk b a :
  parse_line (line_f2 st) (line_count_f2 st) px py pz = ret b ->
  z <= bz b ->
  first_crossing px py pz b = Some a ->
  read_chunk px py pz (S fuel) z st chunk =
    die 1 (CrossesParentBoundary a (line_count_f2 st) (line_f2 st)).
Proof.
  intros Hp Hz Hc. rewrite (read_chunk_iter _ _ _ _ _ Hp).
  rewrite (proj2 (Z.ltb_ge _ _) Hz). unfold first_crossing in Hc.
  destruct (crosses px (bx b) (bsx b)); [inversion Hc; reflexivity |].
  destruct (crosses py (by_ b) (bsy b)); [inversion Hc; reflexivity |].
  destruct (crosses pz (bz b) (bsz b)); [inversion Hc; reflexivity | discriminate].
Qed.

(** An iteration whose block lies before the slab ends the run. *)
Lemma read_chunk_earlier fuel z st chunk b :
  parse_line (line_f2 st) (line_count_f2 st) px py pz = ret b ->
  bz b < z ->
  read_chunk px py pz (S fuel) z st chunk =
    die 1 (EarlierChunk (line_count_f2 st) (line_f2 st)
             (line_count_f2_last_chunk_end st - 1)).
Proof.
  intros Hp Hz. rewrite (read_chunk_iter _ _ _ _ _ Hp).
  rewrite (proj2 (Z.ltb_lt _ _) Hz). reflexivity.
Qed.

End ChunkFacts.

(** ** The order of the sort key and the sort *)

Ltac key_cases :=
  repeat match goal with
  | k : (Z * Z * Z)%type |- _ => destruct k as [[? ?] ?]
  end;
  unfold key_ltb, key_leb in *;
  repeat match goal with
  | |- context [Z.ltb ?a ?b] => destruct (Z.ltb_spec a b)
  | |- context [Z.eqb ?a ?b] => destruct (Z.eqb_spec a b)
  | |- context [Z.leb ?a ?b] => destruct (Z.leb_spec a b)
  | H : context [Z.ltb ?a ?b] |- _ => destruct (Z.ltb_spec a b)
  | H : context [Z.eqb ?a ?b] |- _ => destruct (Z.eqb_spec a b)
  | H : context [Z.leb ?a ?b] |- _ => destruct (Z.leb_spec a b)
  end;
  simpl in *; try congruence; try lia.

Lemma key_leb_total k1 k2 : key_leb k1 k2 = false -> key_leb k2 k1 = true.
Proof. key_cases. Qed.

Lemma key_leb_trans k1 k2 k3 :
  key_leb k1 k2 = true -> key_leb k2 k3 = true -> key_leb k1 k3 = true.
Proof. key_cases. Qed.

Lemma key_leb_antisym k1 k2 :
  key_leb k1 k2 = true -> key_leb k2 k1 = true -> k1 = k2.
Proof. key_cases; intros _ _; repeat f_equal; lia. Qed.

Lemma key_ltb_leb k1 k2 : key_ltb k1 k2 = true -> key_leb k1 k2 = true.
Proof. key_cases. Qed.

Lemma key_ltb_irrefl k1 k2 :
  key_ltb k1 k2 = true -> key_leb k2 k1 = true -> False.
Proof. key_cases. Qed.

Section SortFacts.

Lemma insert_perm e l : Permutation (e :: l) (insert e l).
Proof.
  induction l as [| e' l IH]; cbn [insert]; [reflexivity |].
  destruct (key_leb (sort_key e) (sort_key e')); [reflexivity |].
  rewrite perm_swap. constructor. exact IH.
Qed.

Lemma sort_perm l : Permutation l (sort l).
Proof.
  induction l as [| e l IH]; cbn [sort]; [constructor |].
  rewrite <- insert_perm. constructor. exact IH.
Qed.

Lemma insert_sorted e l : Sorted key_le l -> Sorted key_le (insert e l).
Proof.
  induction 1 as [| e' l Hs IH Hhd]; cbn [insert].
  - repeat constructor.
  - destruct (key_leb (sort_key e) (sort_key e')) eqn:E.
    + repeat constructor; assumption.
    + constructor; [exact IH |].
      destruct l as [| e'' l]; cbn [insert].
      * constructor. apply key_leb_total. exact E.
      * destruct (key_leb (sort_key e) (sort_key e'')).
        -- constructor. apply key_leb_total. exact E.
        -- constructor. inversion Hhd; assumption.
Qed.

Lemma sort_sorted l : StronglySorted key_le (sort l).
Proof.
  apply Sorted_StronglySorted.
  - intros a b c. unfold key_le. apply key_leb_trans.
  - induction l as [| e l IH]; cbn [sort]; [constructor |].
    apply insert_sorted. exact IH.
Qed.

End SortFacts.

(** A list of cells in weakly ascending key order that is a rearrangement
    of a list in strictly ascending key order is that list. *)

Lemma sorted_perm_eq : forall l1 l2 : list cell,
  StronglySorted cell_le l1 -> StronglySorted cell_lt l2 ->
  Permutation l1 l2 -> l1 = l2.
Proof.
  induction l1 as [| a l1 IH]; intros l2 H1 H2 HP.
  - apply Permutation_nil in HP. congruence.
  - destruct l2 as [| c l2].
    + apply Permutation_sym, Permutation_nil in HP. discriminate.
    + inversion H1 as [| ? ? H1' Ha]; subst.
      inversion H2 as [| ? ? H2' Hc]; subst.
      assert (a = c) as ->.
      { assert (In a (c :: l2)) as [Hin | Hin]
          by (eapply Permutation_in; [exact HP | left; reflexivity]);
          [congruence |].
        assert (In c (a :: l1)) as [Hin' | Hin']
          by (eapply Permutation_in; [apply Permutation_sym; exact HP | left; reflexivity]);
          [congruence |].
        rewrite Forall_forall in Ha, Hc.
        exfalso. eapply key_ltb_irrefl; [apply (Hc _ Hin) | apply (Ha _ Hin')]. }
      f_equal. apply IH; auto. eapply Permutation_cons_inv. exact HP.
Qed.

Lemma sort_cells es cs :
  Permutation (map cell_of_entry es) cs -> StronglySorted cell_lt cs ->
  map cell_of_entry (sort es) = cs.
Proof.
  intros HP Hs. apply sorted_perm_eq; auto.
  - pose proof (sort_sorted es) as H. induction H as [| e l Hl IH He]; simpl.
    + constructor.
    + constructor; [exact IH |].
      rewrite Forall_forall in *. intros c Hc. apply in_map_iff in Hc as (e' & <- & Hin).
      apply (He _ Hin).
  - rewrite <- HP. apply Permutation_map. apply Permutation_sym, sort_perm.
Qed.

(** ** Computations that print only when they fail *)

Lemma quiet_ret {A} (a : A) : quiet (ret a).
Proof. intros out a' H. inversion H. reflexivity. Qed.

Lemma quiet_raise {A} out e : quiet ((out, Raise e) : M A).
Proof. intros out' a H. discriminate. Qed.

Lemma quiet_bind {A B} (m : M A) (f : A -> M B) :
  quiet m -> (forall a, quiet (f a)) -> quiet (bind m f).
Proof.
  intros Hm Hf out b H.
  apply bind_ok_inv in H as (out1 & a & out2 & E1 & E2 & ->).
  rewrite (Hm _ _ E1), (Hf _ _ _ E2). reflexivity.
Qed.

Lemma quiet_item l i : quiet (item l i).
Proof. unfold item. destruct (nth_error l i); [apply quiet_ret | apply quiet_raise]. Qed.

Ltac quiet_tac :=
  repeat first
    [ apply quiet_ret | apply quiet_raise | apply quiet_item
    | apply quiet_bind; [| intros ?]
    | match goal with
      | |- quiet (if ?c then _ else _) => destruct c
      | |- quiet (match ?x with _ => _ end) => destruct x
      end ].

Lemma quiet_parse_line line n px py pz : quiet (parse_line line n px py pz).
Proof. unfold parse_line, file_format_error_and_exit, or_else, die, sys_exit, raise, print. quiet_tac. Qed.

Lemma quiet_read_next f : forall n, quiet (read_next_line_of_input f n).
Proof.
  induction f as [| ev f IH]; intros n; simpl.
  - apply quiet_ret.
  - destruct ev as [line | e].
    + destruct line as [| c line]; [apply quiet_ret |].
      destruct (_ || _); [apply IH | apply quiet_ret].
    + unfold read_failed. destruct e; apply quiet_raise.
Qed.

(** ** The comparison of a chunk with the reference *)

(** The first entry against the next reference record. *)
Lemma check_chunk_cons e rest f1 n line n' f1' b :
  read_next_line_of_input f1 n = ret (line, n', f1') ->
  line <> EmptyString ->
  parse_line line n' 1 1 1 = ret b ->
  check_chunk (e :: rest) f1 n =
    if negb (ex e =? bx b) || negb (ey e =? by_ b) || negb (ez e =? bz b)
    then die 1 (BlockMissing (bx b) (by_ b) (bz b))
    else if negb (String.eqb (edomain e) (bdomain b))
    then die 1 (BlockShouldBe (bx b) (by_ b) (bz b) (edomain e) (eline e) (bdomain b))
    else check_chunk rest f1' n'.
Proof.
  intros Hr Hl Hp. cbn [check_chunk]. rewrite Hr, bind_ret_l.
  rewrite (proj2 (String.eqb_neq _ _) Hl), Hp, bind_ret_l. reflexivity.
Qed.

Lemma same_position_test e b :
  negb (ex e =? bx b) || negb (ey e =? by_ b) || negb (ez e =? bz b) = false
  <-> same_position e b.
Proof.
  unfold same_position.
  destruct (Z.eqb_spec (ex e) (bx b)), (Z.eqb_spec (ey e) (by_ b)),
    (Z.eqb_spec (ez e) (bz b)); simpl; intuition congruence.
Qed.

Lemma next_unit_blocks_S n f1 lc bs f1'' lc'' :
  next_unit_blocks (S n) f1 lc = Some (bs, f1'', lc'') ->
  exists line lc' f1' b bs',
    read_next_line_of_input f1 lc = ret (line, lc', f1') /\
    line <> EmptyString /\
    parse_line line lc' 1 1 1 = ret b /\
    next_unit_blocks n f1' lc' = Some (bs', f1'', lc'') /\
    bs = b :: bs'.
Proof.
  cbn [next_unit_blocks].
  destruct (read_next_line_of_input f1 lc) as [out [[[line lc'] f1'] | e |]] eqn:Er;
    try discriminate.
  destruct (String.eqb_spec line EmptyString) as [| Hl]; [discriminate |].
  destruct (parse_line line lc' 1 1 1) as [out' [b | e |]] eqn:Ep; try discriminate.
  destruct (next_unit_blocks n f1' lc') as [[[bs' f] l] |] eqn:En; [| discriminate].
  intros H. inversion H; subst.
  pose proof (quiet_read_next _ _ _ _ Er). pose proof (quiet_parse_line _ _ _ _ _ _ _ Ep).
  subst out out'.
  exists line, lc', f1', b, bs'. repeat split; auto.
Qed.

Lemma quiet_check_chunk es : forall f1 n, quiet (check_chunk es f1 n).
Proof.
  induction es as [| e es IH]; intros f n; cbn [check_chunk].
  - apply quiet_ret.
  - apply quiet_bind; [apply quiet_read_next |]. intros [[l k] g].
    destruct (String.eqb l EmptyString); [apply quiet_raise |].
    apply quiet_bind; [apply quiet_parse_line |]. intros b.
    destruct (_ || _); [apply quiet_raise |].
    destruct (negb _); [apply quiet_raise | apply IH].
Qed.

(** The chunk is accepted exactly when the reference reader delivers as
    many records as the chunk has entries and they agree pair by pair. *)
Lemma check_chunk_accepts : forall es f1 lc f1' lc',
  check_chunk es f1 lc = ret (f1', lc') <->
  exists bs, next_unit_blocks (List.length es) f1 lc = Some (bs, f1', lc') /\
             Forall2 same_block es bs.
Proof.
  induction es as [| e es IH]; intros f1 lc f1' lc'.
  - simpl. split.
    + intros H. inversion H; subst. exists []. split; [reflexivity | constructor].
    + intros (bs & H & _). inversion H; subst. reflexivity.
  - split.
    + intros H. cbn [check_chunk] in H.
      apply bind_ok_inv in H as (out1 & [[line n'] f1a] & out2 & Er & H & _).
      pose proof (quiet_read_next _ _ _ _ Er) as ->.
      destruct (String.eqb_spec line EmptyString) as [| Hl]; [discriminate |].
      apply bind_ok_inv in H as (out3 & b & out4 & Ep & H & _).
      pose proof (quiet_parse_line _ _ _ _ _ _ _ Ep) as ->.
      destruct (negb (ex e =? bx b) || negb (ey e =? by_ b) || negb (ez e =? bz b))
        eqn:Epos; [discriminate |].
      destruct (String.eqb_spec (edomain e) (bdomain b)) as [Hd |]; [| discriminate].
      simpl negb in H. cbv iota in H.
      pose proof (quiet_check_chunk _ _ _ _ _ H) as ->.
      apply IH in H as (bs & Hn & Hf).
      exists (b :: bs). split.
      * cbn [List.length next_unit_blocks]. rewrite Er.
        rewrite (proj2 (String.eqb_neq _ _) Hl), Ep, Hn. reflexivity.
      * constructor; [| exact Hf]. split; [apply same_position_test; exact Epos | exact Hd].
    + intros (bs & Hn & Hf). cbn [List.length] in Hn.
      apply next_unit_blocks_S in Hn as (line & n' & f1a & b & bs' & Er & Hl & Ep & Hn & ->).
      inversion Hf as [| ? ? ? ? [Hpos Hd] Hf']; subst.
      rewrite (check_chunk_cons _ _ _ _ _ _ _ _ Er Hl Ep).
      rewrite (proj2 (same_position_test _ _) Hpos).
      rewrite (proj2 (String.eqb_eq _ _) Hd). simpl negb. cbv iota.
      apply IH. exists bs'. auto.
Qed.

(** The first pair that disagrees stops the run, with a diagnostic that
    names the reference block. *)
Lemma check_chunk_rejects : forall es1 bs1,
  Forall2 same_block es1 bs1 ->
  forall e es2 b f1 lc f1' lc',
  next_unit_blocks (S (List.length es1)) f1 lc = Some (bs1 ++ [b], f1', lc') ->
  (~ same_position e b ->
   check_chunk (es1 ++ e :: es2) f1 lc =
     die 1 (BlockMissing (bx b) (by_ b) (bz b))) /\
  (same_position e b -> edomain e <> bdomain b ->
   check_chunk (es1 ++ e :: es2) f1 lc =
     die 1 (BlockShouldBe (bx b) (by_ b) (bz b) (edomain e) (eline e) (bdomain b))).
Proof.
  induction 1 as [| e1 b1 es1 bs1 [Hpos Hd] Hf IH]; intros e es2 b f1 lc f1' lc' Hn;
    apply next_unit_blocks_S in Hn
      as (line & n' & f1a & b0 & bs' & Er & Hl & Ep & Hn & Hbs);
    cbn [app]; rewrite (check_chunk_cons _ _ _ _ _ _ _ _ Er Hl Ep).
  - simpl in Hbs. inversion Hbs; subst b0 bs'. split.
    + intros Hne.
      destruct (negb (ex e =? bx b) || negb (ey e =? by_ b) || negb (ez e =? bz b))
        eqn:E; [reflexivity |].
      apply same_position_test in E. contradiction.
    + intros Hsame Hne. rewrite (proj2 (same_position_test _ _) Hsame).
      rewrite (proj2 (String.eqb_neq _ _) Hne). reflexivity.
  - simpl in Hbs. inversion Hbs; subst b0 bs'.
    rewrite (proj2 (same_position_test _ _) Hpos).
    rewrite (proj2 (String.eqb_eq _ _) Hd). simpl negb. cbv iota.
    apply IH with (f1' := f1') (lc' := lc'). exact Hn.
Qed.

(** With a reference that presents the blocks the entries stand for, the
    comparison succeeds and leaves the reference at the remaining blocks. *)
Lemma check_chunk_ok : forall es cur rest f1 lc,
  readable f1 ->
  Forall2 (parses 1 1 1) (data_lines f1) (cur ++ rest) ->
  map cell_of_entry es = map cell_of_block cur ->
  exists f1' lc',
    check_chunk es f1 lc = ret (f1', lc') /\
    readable f1' /\
    Forall2 (parses 1 1 1) (data_lines f1') rest.
Proof.
  induction es as [| e es IH]; intros cur rest f1 lc Hr Hf Hm.
  - destruct cur; [| discriminate]. exists f1, lc. simpl. auto.
  - destruct cur as [| b cur]; [discriminate |].
    simpl in Hm. inversion Hm as [[Hx Hy Hz Hd Hm']].
    destruct (read_next_readable f1 lc Hr) as (n' & f1a & Er & Hr' & D & _).
    pose proof (data_lines_nonempty _ Hr) as Hne.
    simpl app in Hf. inversion Hf as [| l ? ls ? Hp Hf' E0]; subst.
    rewrite <- E0 in *. simpl hd in Er. simpl tl in D.
    inversion Hne as [| ? ? Hl _]; subst.
    rewrite (check_chunk_cons _ _ _ _ _ _ _ _ Er Hl (Hp _)).
    rewrite Hx, Hy, Hz, Hd, !Z.eqb_refl, String.eqb_refl. simpl.
    apply (IH cur rest); auto.
Qed.

(** ** The chunk loop on a well-formed pair of streams *)

Section LoopFacts.

Variables px py pz : Z.
Hypothesis px_pos : 0 < px.
Hypothesis py_pos : 0 < py.
Hypothesis pz_pos : 0 < pz.

Lemma chunk_body_ok z st good rest cur refs :
  presents px py pz (line_f2 st) (file2 st) (good ++ rest) ->
  good <> [] ->
  Forall (in_slab px py pz z) good ->
  match rest with [] => True | b :: _ => beyond_slab px py pz z b end ->
  readable (file1 st) ->
  Forall2 (parses 1 1 1) (data_lines (file1 st)) (cur ++ refs) ->
  Permutation (flat_map cells_of_block good) (map cell_of_block cur) ->
  StronglySorted cell_lt (map cell_of_block cur) ->
  exists st',
    chunk_body px py pz z st = ret st' /\
    presents px py pz (line_f2 st') (file2 st') rest /\
    readable (file1 st') /\
    Forall2 (parses 1 1 1) (data_lines (file1 st')) refs /\
    block_count_f2 st' = block_count_f2 st + Z.of_nat (List.length good).
Proof.
  intros Hpres Hne Hgood Hrest Hr1 Hf1 Hperm Hsorted.
  destruct (read_chunk_good px py pz px_pos py_pos pz_pos good rest st []
              (S (List.length (file2 st))) z)
    as (st1 & chunk & Erun & Hpres1 & Ef1 & Elc1 & Ecount & Ecells); auto.
  { destruct good; [congruence | discriminate]. }
  simpl app in Erun.
  destruct (check_chunk_ok (sort chunk) cur refs (file1 st1) (line_count_f1 st1))
    as (f1' & lc' & Echeck & Hr1' & Hf1').
  { rewrite Ef1. exact Hr1. }
  { rewrite Ef1. exact Hf1. }
  { apply sort_cells; [rewrite Ecells; exact Hperm | exact Hsorted]. }
  unfold chunk_body. rewrite Erun, bind_ret_l, Echeck, bind_ret_l.
  eexists. split; [reflexivity |]. simpl. auto.
Qed.

Lemma chunk_loop_ok zs recs refs :
  plan px py pz zs recs refs ->
  forall st,
  presents px py pz (line_f2 st) (file2 st) recs ->
  readable (file1 st) ->
  Forall2 (parses 1 1 1) (data_lines (file1 st)) refs ->
  exists st',
    chunk_loop px py pz zs st = ret st' /\
    block_count_f2 st' = block_count_f2 st + Z.of_nat (List.length recs).
Proof.
  induction 1 as [| z zs good rest cur refs Hne Hgood Hrest Hperm Hsorted Hplan IH];
    intros st Hpres Hr1 Hf1.
  - exists st. split; [reflexivity |]. simpl. lia.
  - destruct (chunk_body_ok z st good rest cur refs)
      as (st1 & Ebody & Hpres1 & Hr1' & Hf1' & Ecount); auto.
    destruct (IH st1 Hpres1 Hr1' Hf1') as (st' & Eloop & Ecount').
    exists st'. cbn [chunk_loop]. rewrite Ebody, bind_ret_l. split; [exact Eloop |].
    rewrite Ecount', Ecount, length_app, Nat2Z.inj_add. lia.
Qed.

End LoopFacts.

(** ** Lists *)

Lemma StronglySorted_app {A} (R : A -> A -> Prop) l1 l2 :
  StronglySorted R l1 -> StronglySorted R l2 ->
  (forall a b, In a l1 -> In b l2 -> R a b) ->
  StronglySorted R (l1 ++ l2).
Proof.
  induction 1 as [| a l1 Hs IH Ha]; intros H2 Hc; simpl; [exact H2 |].
  constructor.
  - apply IH; auto. intros; apply Hc; simpl; auto.
  - apply Forall_app. split; [exact Ha |].
    apply Forall_forall. intros b Hb. apply Hc; simpl; auto.
Qed.

Lemma StronglySorted_flat_map {A B} (R' : A -> A -> Prop) (R : B -> B -> Prop)
    (g : A -> list B) l :
  StronglySorted R' l ->
  (forall a, In a l -> StronglySorted R (g a)) ->
  (forall a a' b b', R' a a' -> In b (g a) -> In b' (g a') -> R b b') ->
  StronglySorted R (flat_map g l).
Proof.
  induction 1 as [| a l Hs IH Ha]; intros Hg Hc; simpl; [constructor |].
  apply StronglySorted_app.
  - apply Hg. simpl; auto.
  - apply IH; auto. intros; apply Hg; simpl; auto.
  - intros b b' Hb Hb'. apply in_flat_map in Hb' as (a' & Ha' & Hb').
    rewrite Forall_forall in Ha. eapply Hc; eauto.
Qed.

Lemma StronglySorted_map {A B} (R : B -> B -> Prop) (f : A -> B) l :
  StronglySorted (fun a a' => R (f a) (f a')) l -> StronglySorted R (map f l).
Proof.
  induction 1 as [| a l Hs IH Ha]; simpl; constructor; auto.
  apply Forall_forall. intros b Hb. apply in_map_iff in Hb as (a' & <- & Hin).
  rewrite Forall_forall in Ha. auto.
Qed.

Lemma StronglySorted_filter {A} (R : A -> A -> Prop) (p : A -> bool) l :
  StronglySorted R l -> StronglySorted R (filter p l).
Proof.
  induction 1 as [| a l Hs IH Ha]; simpl; [constructor |].
  destruct (p a); [| exact IH]. constructor; [exact IH |].
  apply Forall_forall. intros b Hb. apply filter_In in Hb as [Hb _].
  rewrite Forall_forall in Ha. auto.
Qed.

(** A list sorted so that the elements satisfying [p] come first splits
    into those and the others. *)
Lemma filter_split {A} (R : A -> A -> Prop) (p : A -> bool) l :
  StronglySorted R l ->
  (forall a b, R a b -> p b = true -> p a = true) ->
  l = filter p l ++ filter (fun a => negb (p a)) l.
Proof.
  intros Hs Hp. induction Hs as [| a l Hs IH Ha]; simpl; [reflexivity |].
  destruct (p a) eqn:E; simpl.
  - f_equal. exact IH.
  - assert (filter p l = []) as Hnil.
    { clear IH. induction l as [| b l IHl]; simpl; [reflexivity |].
      inversion Ha as [| ? ? Hab Ha']; subst. inversion Hs; subst.
      destruct (p b) eqn:Eb.
      - rewrite (Hp _ _ Hab Eb) in E. discriminate.
      - apply IHl; auto. }
    rewrite Hnil in *. simpl in *. f_equal. exact IH.
Qed.

Lemma Permutation_filter {A} (p : A -> bool) l l' :
  Permutation l l' -> Permutation (filter p l) (filter p l').
Proof.
  induction 1 as [| a l l' HP IH | a b l | l l' l'' H1 IH1 H2 IH2]; simpl.
  - constructor.
  - destruct (p a); [constructor |]; exact IH.
  - destruct (p a), (p b); try reflexivity. apply perm_swap.
  - etransitivity; eassumption.
Qed.

Lemma filter_flat_map {A B} (p : A -> bool) (q : B -> bool) (g : A -> list B) l :
  (forall a b, In a l -> In b (g a) -> q b = p a) ->
  filter q (flat_map g l) = flat_map g (filter p l).
Proof.
  induction l as [| a l IH]; intros H; simpl; [reflexivity |].
  rewrite filter_app, IH by (intros; apply H; simpl; auto).
  assert (forall b, In b (g a) -> q b = p a) as Ha by (intros; apply H; simpl; auto).
  destruct (p a); simpl.
  - f_equal. clear -Ha. induction (g a) as [| b l' IHl]; simpl; [reflexivity |].
    rewrite (Ha b) by (simpl; auto). f_equal. apply IHl. intros; apply Ha; simpl; auto.
  - replace (filter q (g a)) with (@nil B); [reflexivity |].
    clear -Ha. induction (g a) as [| b l' IHl]; simpl; [reflexivity |].
    rewrite (Ha b) by (simpl; auto). apply IHl. intros; apply Ha; simpl; auto.
Qed.

Lemma length_flat_map_const {A B} (g : A -> list B) (c : nat) l :
  (forall a, List.length (g a) = c) ->
  List.length (flat_map g l) = (List.length l * c)%nat.
Proof.
  intros H. induction l as [| a l IH]; simpl; [reflexivity |].
  rewrite length_app, H, IH. reflexivity.
Qed.

Lemma length_flat_map_ge {A B} (g : A -> list B) l :
  Forall (fun a => g a <> []) l ->
  (List.length l <= List.length (flat_map g l))%nat.
Proof.
  induction 1 as [| a l Ha _ IH]; simpl; [lia |].
  rewrite length_app. destruct (g a); [congruence |]. simpl. lia.
Qed.

(** ** Ranges, boxes and grids *)

Lemma in_iota x : forall n start,
  In x (Py.iota start 1 n) <-> start <= x < start + Z.of_nat n.
Proof.
  induction n as [| n IH]; intros start; cbn [Py.iota In].
  - simpl. lia.
  - rewrite IH, Nat2Z.inj_succ. lia.
Qed.

Lemma in_range n x : In x (Py.range n) <-> 0 <= x < n.
Proof. unfold Py.range. rewrite in_iota. lia. Qed.

Lemma iota_sorted : forall n start, StronglySorted Z.lt (Py.iota start 1 n).
Proof.
  induction n as [| n IH]; intros start; cbn [Py.iota]; constructor; [apply IH |].
  apply Forall_forall. intros x Hx. apply in_iota in Hx. lia.
Qed.

Lemma length_iota : forall n start step, List.length (Py.iota start step n) = n.
Proof. induction n; intros; simpl; auto. Qed.

Lemma length_range n : 0 <= n -> Z.of_nat (List.length (Py.range n)) = n.
Proof. intros H. unfold Py.range. rewrite length_iota. lia. Qed.

(** The cells of a block are those of its box, with its label. *)
Lemma in_cells_of_block b x y z d :
  In (x, y, z, d) (cells_of_block b) <->
  bx b <= x < bx b + bsx b /\ by_ b <= y < by_ b + bsy b /\
  bz b <= z < bz b + bsz b /\ d = bdomain b.
Proof.
  unfold cells_of_block, explode. rewrite in_map_iff. split.
  - intros (e & He & Hin).
    apply in_flat_map in Hin as (sz & Hsz & Hin).
    apply in_flat_map in Hin as (sy & Hsy & Hin).
    apply in_map_iff in Hin as (sx & <- & Hsx).
    apply in_range in Hsx, Hsy, Hsz.
    unfold cell_of_entry in He. simpl in He. inversion He; subst.
    repeat split; lia || reflexivity.
  - intros (Hx & Hy & Hz & ->).
    exists (Entry x y z (bdomain b) 0). split; [reflexivity |].
    apply in_flat_map. exists (z - bz b). split; [apply in_range; lia |].
    apply in_flat_map. exists (y - by_ b). split; [apply in_range; lia |].
    apply in_map_iff. exists (x - bx b). split; [| apply in_range; lia].
    f_equal; lia.
Qed.

Lemma in_grid xc yc zc x y z :
  In (x, y, z) (grid xc yc zc) <-> 0 <= x < xc /\ 0 <= y < yc /\ 0 <= z < zc.
Proof.
  unfold grid. rewrite in_flat_map. split.
  - intros (z' & Hz & Hin). apply in_flat_map in Hin as (y' & Hy & Hin).
    apply in_map_iff in Hin as (x' & E & Hx). inversion E; subst.
    apply in_range in Hx, Hy, Hz. lia.
  - intros (Hx & Hy & Hz). exists z. split; [apply in_range; lia |].
    apply in_flat_map. exists y. split; [apply in_range; lia |].
    apply in_map_iff. exists x. split; [reflexivity | apply in_range; lia].
Qed.

Lemma StronglySorted_weaken {A} (R R' : A -> A -> Prop) l :
  (forall a b, R a b -> R' a b) -> StronglySorted R l -> StronglySorted R' l.
Proof.
  intros HR. induction 1 as [| a l Hs IH Ha]; constructor; auto.
  eapply Forall_impl; [| exact Ha]. auto.
Qed.

Lemma grid_sorted xc yc zc : StronglySorted coords_lt (grid xc yc zc).
Proof.
  unfold grid.
  apply StronglySorted_flat_map with (R' := Z.lt); [apply iota_sorted | |].
  - intros z _.
    apply StronglySorted_flat_map with (R' := Z.lt); [apply iota_sorted | |].
    + intros y _. apply StronglySorted_map.
      eapply StronglySorted_weaken; [| apply iota_sorted].
      intros x x' Hx. unfold coords_lt. key_cases.
    + intros y y' c c' Hy Hc Hc'.
      apply in_map_iff in Hc as (x & <- & _). apply in_map_iff in Hc' as (x' & <- & _).
      unfold coords_lt. key_cases.
  - intros z z' c c' Hz Hc Hc'.
    apply in_flat_map in Hc as (y & _ & Hc). apply in_map_iff in Hc as (x & <- & _).
    apply in_flat_map in Hc' as (y' & _ & Hc'). apply in_map_iff in Hc' as (x' & <- & _).
    unfold coords_lt. key_cases.
Qed.

Lemma length_grid xc yc zc :
  0 <= xc -> 0 <= yc -> 0 <= zc ->
  Z.of_nat (List.length (grid xc yc zc)) = xc * yc * zc.
Proof.
  intros Hx Hy Hz. unfold grid.
  rewrite (length_flat_map_const _ (Z.to_nat yc * Z.to_nat xc)%nat).
  - unfold Py.range. rewrite length_iota. lia.
  - intros z. rewrite (length_flat_map_const _ (Z.to_nat xc)).
    + unfold Py.range. rewrite length_iota. reflexivity.
    + intros y. rewrite length_map. unfold Py.range. apply length_iota.
Qed.

Lemma StronglySorted_map_inv {A B} (R : B -> B -> Prop) (f : A -> B) l :
  StronglySorted R (map f l) -> StronglySorted (fun a a' => R (f a) (f a')) l.
Proof.
  induction l as [| a l IH]; simpl; intros H; [constructor |].
  inversion H as [| ? ? Hs Ha]; subst. constructor; [auto |].
  rewrite Forall_forall in *. intros a' Hin. apply Ha. apply in_map. exact Hin.
Qed.

(** ** From a well-formed pair of block lists to the plan of the loop *)

Section PlanFacts.

Variables px py pz : Z.
Hypothesis pz_pos : 0 < pz.

Lemma slab_le a k : a <= k * pz + pz - 1 <-> a / pz <= k.
Proof.
  split; intros H.
  - assert (a / pz < k + 1) by (apply Z.div_lt_upper_bound; lia). lia.
  - pose proof (Z.mul_succ_div_gt a pz pz_pos).
    assert (pz * Z.succ (a / pz) <= pz * (k + 1)) by (apply Z.mul_le_mono_nonneg_l; lia).
    lia.
Qed.

Lemma slab_ge a k : k * pz <= a <-> k <= a / pz.
Proof.
  split; intros H.
  - apply Z.div_le_lower_bound; lia.
  - pose proof (Z.mul_div_le a pz pz_pos).
    assert (pz * k <= pz * (a / pz)) by (apply Z.mul_le_mono_nonneg_l; lia).
    lia.
Qed.

Lemma one_parent_z b :
  crosses_some px py pz b = false -> bz b / pz = (bz b + bsz b - 1) / pz.
Proof.
  intros Hc. unfold crosses_some, crosses in Hc.
  apply orb_false_elim in Hc as [_ Hc]. apply negb_false_iff, Z.eqb_eq in Hc. exact Hc.
Qed.

Lemma cell_in_block k b c :
  crosses_some px py pz b = false -> k * pz <= bz b -> In c (cells_of_block b) ->
  cell_in_slab pz (k * pz) c = block_in_slab pz (k * pz) b.
Proof.
  intros Hv Hk Hin. destruct c as [[[x y] z] d].
  apply in_cells_of_block in Hin as (_ & _ & Hz & _).
  apply one_parent_z in Hv as Hdiv.
  unfold cell_in_slab, block_in_slab.
  destruct (Z.leb_spec (bz b) (k * pz + pz - 1)), (Z.leb_spec z (k * pz + pz - 1));
    try reflexivity; exfalso.
  - assert (bz b + bsz b - 1 <= k * pz + pz - 1); [| lia].
    apply slab_le. rewrite <- Hdiv. apply slab_le. lia.
  - lia.
Qed.

Lemma cells_filter k recs :
  Forall (fun b => crosses_some px py pz b = false) recs ->
  Forall (fun b => k * pz <= bz b) recs ->
  filter (cell_in_slab pz (k * pz)) (flat_map cells_of_block recs) =
  flat_map cells_of_block (filter (block_in_slab pz (k * pz)) recs).
Proof.
  intros Hv Hk. apply filter_flat_map. intros b c Hb Hc.
  rewrite Forall_forall in Hv, Hk. apply cell_in_block; auto.
Qed.

Lemma cells_filter_not k recs :
  Forall (fun b => crosses_some px py pz b = false) recs ->
  Forall (fun b => k * pz <= bz b) recs ->
  filter (fun c => negb (cell_in_slab pz (k * pz) c)) (flat_map cells_of_block recs) =
  flat_map cells_of_block (filter (fun a => negb (block_in_slab pz (k * pz) a)) recs).
Proof.
  intros Hv Hk. apply filter_flat_map. intros b c Hb Hc.
  rewrite Forall_forall in Hv, Hk. f_equal. apply cell_in_block; auto.
Qed.

Lemma refs_filter k refs :
  filter (cell_in_slab pz (k * pz)) (map cell_of_block refs) =
  map cell_of_block (filter (block_in_slab pz (k * pz)) refs).
Proof. rewrite filter_map_swap. reflexivity. Qed.

Lemma refs_filter_not k refs :
  filter (fun c => negb (cell_in_slab pz (k * pz) c)) (map cell_of_block refs) =
  map cell_of_block (filter (fun a => negb (block_in_slab pz (k * pz) a)) refs).
Proof. rewrite filter_map_swap. reflexivity. Qed.

Lemma build_plan : forall n k recs refs,
  StronglySorted (fun a b => bz a / pz <= bz b / pz) recs ->
  Forall (fun b => crosses_some px py pz b = false) recs ->
  Forall (fun b => k * pz <= bz b < (k + Z.of_nat n) * pz) recs ->
  StronglySorted cell_lt (map cell_of_block refs) ->
  Forall (fun r => k * pz <= bz r < (k + Z.of_nat n) * pz) refs ->
  (forall i, k <= i < k + Z.of_nat n -> exists r, In r refs /\ bz r / pz = i) ->
  Permutation (flat_map cells_of_block recs) (map cell_of_block refs) ->
  plan px py pz (Py.iota (k * pz) pz n) recs refs.
Proof.
  induction n as [| n IH]; intros k recs refs Hord Hv Hk Hsort Hrange Hfull Hperm.
  - destruct refs as [| r refs].
    + destruct recs as [| b recs]; [constructor |].
      exfalso. inversion Hk as [| ? ? Hb _]; subst. simpl in Hb. lia.
    + exfalso. inversion Hrange as [| ? ? Hr _]; subst. simpl in Hr. lia.
  - cbn [Py.iota].
    rewrite (filter_split _ (block_in_slab pz (k * pz)) recs Hord).
    2: { intros a b Hab Hb. unfold block_in_slab in *. apply Z.leb_le in Hb. apply Z.leb_le.
         apply slab_le. apply slab_le in Hb. lia. }
    pose proof (StronglySorted_map_inv _ _ _ Hsort) as Hsort'.
    rewrite (filter_split _ (block_in_slab pz (k * pz)) refs Hsort').
    2: { intros a b Hab Hb. unfold block_in_slab in *. apply Z.leb_le in Hb. apply Z.leb_le.
         unfold cell_lt, cell_of_block, cell_key in Hab. revert Hab. key_cases. }
    rewrite Forall_forall in Hv, Hk, Hrange.
    apply plan_slab.
    + destruct (Hfull k) as (r & Hr & Hrk); [lia |].
      assert (In (cell_of_block r) (flat_map cells_of_block recs)) as Hin
        by (eapply Permutation_in; [apply Permutation_sym; exact Hperm | apply in_map; exact Hr]).
      apply in_flat_map in Hin as (b & Hb & Hin).
      apply in_cells_of_block in Hin as (_ & _ & Hz & _).
      intros Hnil.
      assert (In b (filter (block_in_slab pz (k * pz)) recs)) as Hin.
      { apply filter_In. split; [exact Hb |]. unfold block_in_slab. apply Z.leb_le.
        assert (bz r <= k * pz + pz - 1) by (apply slab_le; lia). lia. }
      rewrite Hnil in Hin. exact Hin.
    + apply Forall_forall. intros b Hb. apply filter_In in Hb as [Hb Hin].
      unfold block_in_slab in Hin. apply Z.leb_le in Hin.
      split; [specialize (Hk _ Hb); simpl in Hk; lia | apply (Hv _ Hb)].
    + destruct (filter (fun a => negb (block_in_slab pz (k * pz) a)) recs) as [| b rest] eqn:E;
        [exact I |].
      assert (In b (filter (fun a => negb (block_in_slab pz (k * pz) a)) recs)) as Hin
        by (rewrite E; left; reflexivity).
      apply filter_In in Hin as [Hb Hin]. unfold block_in_slab in Hin.
      apply negb_true_iff, Z.leb_gt in Hin.
      split; [lia | apply (Hv _ Hb)].
    + rewrite <- (cells_filter k recs), <- (refs_filter k refs);
        try (apply Forall_forall; assumption);
        try (apply Forall_forall; intros b Hb; apply (Hk b Hb)).
      apply Permutation_filter. exact Hperm.
    + rewrite <- (refs_filter k refs).
      apply StronglySorted_filter. exact Hsort.
    + replace (k * pz + pz) with ((k + 1) * pz) by lia.
      apply IH.
      * apply StronglySorted_filter. exact Hord.
      * apply Forall_forall. intros b Hb. apply filter_In in Hb as [Hb _]. auto.
      * apply Forall_forall. intros b Hb. apply filter_In in Hb as [Hb Hin].
        unfold block_in_slab in Hin. apply negb_true_iff, Z.leb_gt in Hin.
        specialize (Hk _ Hb). simpl in Hk. lia.
      * rewrite <- (refs_filter_not k refs). apply StronglySorted_filter. exact Hsort.
      * apply Forall_forall. intros r Hr. apply filter_In in Hr as [Hr Hin].
        unfold block_in_slab in Hin. apply negb_true_iff, Z.leb_gt in Hin.
        specialize (Hrange _ Hr). simpl in Hrange. lia.
      * intros i Hi. destruct (Hfull i) as (r & Hr & Hri); [lia |].
        exists r. split; [| exact Hri]. apply filter_In. split; [exact Hr |].
        unfold block_in_slab. apply negb_true_iff, Z.leb_gt.
        assert ((k + 1) * pz <= bz r) by (apply slab_ge; lia). lia.
      * rewrite <- (cells_filter_not k recs), <- (refs_filter_not k refs);
          try (apply Forall_forall; assumption);
          try (apply Forall_forall; intros b Hb; apply (Hk b Hb)).
        apply Permutation_filter. exact Hperm.
Qed.

End PlanFacts.

(** ** The analysis of a valid pair *)

Lemma ratio_bounds a b :
  0 < b -> 0 <= a < b -> (0 <= inject_Z a / inject_Z b /\ inject_Z a / inject_Z b < 1)%Q.
Proof.
  intros Hb Ha. destruct b as [| p | p]; try lia.
  unfold Qdiv, Qmult, Qinv, Qle, Qlt. simpl. split; lia.
Qed.

Lemma main_after_setup e :
  item_found e = true -> extension_ok e = true -> input_found e = true ->
  baseline_ok e = true -> item_returncode e = 0 ->
  main e =
    (compression <- analyse (input_csv e) (out_csv e) ;;
     if speed e then
       speed_ <- truediv_time (baseline_time e) (item_under_test_time e) ;;
       narrated_rate (item_under_test_time e) ;;;
       narrated_rate (baseline_time e) ;;;
       ret [compression; speed_]
     else ret [compression]).
Proof.
  unfold item_found, extension_ok, input_found, baseline_ok, main.
  intros -> -> -> Hb ->. simpl.
  destruct (speed e); simpl in Hb.
  - apply andb_prop in Hb as [-> ->]. simpl.
    destruct (bind (analyse _ _) _). reflexivity.
  - simpl. destruct (bind (analyse _ _) _). reflexivity.
Qed.

Lemma ratio_lt_1 a b : 0 < b -> 0 < a -> (inject_Z (b - a) / inject_Z b < 1)%Q.
Proof.
  intros Hb Ha. destruct b as [| p | p]; try lia.
  assert (Z.pos p - a < Z.pos p) as Hd by lia.
  revert Hd. generalize (Z.pos p - a). intros d Hd.
  unfold Qdiv, Qmult, Qinv, Qlt. simpl. lia.
Qed.

Lemma ratio_nonneg a b : 0 < b -> a <= b -> (0 <= inject_Z (b - a) / inject_Z b)%Q.
Proof.
  intros Hb Ha. destruct b as [| p | p]; try lia.
  assert (0 <= Z.pos p - a) as Hd by lia.
  revert Hd. generalize (Z.pos p - a). intros d Hd.
  unfold Qdiv, Qmult, Qinv, Qle. simpl. lia.
Qed.

(** A run that passes the checks and whose analysis returns [compression]
    writes the values of [printed_values] and nothing else. *)
Lemma main_prints e compression :
  setup_passes e -> durations_nonzero e ->
  analyse (input_csv e) (out_csv e) = ret compression ->
  main e = ([], Ok (printed_values e compression)).
Proof.
  intros (H1 & H2 & H3 & H4 & H5) Hd Ha.
  rewrite (main_after_setup e H1 H2 H3 H4 H5), Ha, bind_ret_l.
  unfold printed_values, durations_nonzero in *.
  destruct (speed e); [| reflexivity].
  destruct (Hd eq_refl) as [Hi Hb].
  unfold truediv_time, narrated_rate.
  destruct (Qeq_bool (item_under_test_time e) 0) eqn:Ei;
    [apply Qeq_bool_iff in Ei; contradiction |].
  destruct (Qeq_bool (baseline_time e) 0) eqn:Eb;
    [apply Qeq_bool_iff in Eb; contradiction |].
  reflexivity.
Qed.

Section ValidPair.

Variables x_count y_count z_count px py pz : Z.
Variables (hdr : string) (body out : file) (refs recs : list block).

Hypothesis x_count_pos : 0 < x_count.
Hypothesis y_count_pos : 0 < y_count.
Hypothesis z_count_pos : 0 < z_count.
Hypothesis px_pos : 0 < px.
Hypothesis py_pos : 0 < py.
Hypothesis pz_pos : 0 < pz.
Hypothesis header : parse_line1_of_file1 hdr 1 = ret [x_count; y_count; z_count; px; py; pz].
Hypothesis reference : valid_reference x_count y_count z_count body refs.
Hypothesis candidate : valid_candidate x_count y_count z_count px py pz out recs.
Hypothesis cover : same_cells recs refs.

Lemma refs_length : Z.of_nat (List.length refs) = x_count * y_count * z_count.
Proof.
  destruct reference as (_ & _ & Hg & _).
  rewrite <- (length_map coords), Hg. apply length_grid; lia.
Qed.

(** The candidate has at least one record, and no more records than the
    grid has cells when every record covers a cell. *)
Lemma recs_nonempty : 1 <= Z.of_nat (List.length recs).
Proof.
  pose proof refs_length as Hn.
  destruct recs as [| b l]; [| simpl; lia].
  unfold same_cells in cover. simpl in cover. apply Permutation_nil in cover.
  apply map_eq_nil in cover. rewrite cover in Hn. simpl in Hn. nia.
Qed.

Lemma recs_count :
  Forall has_cells recs ->
  Z.of_nat (List.length recs) <= x_count * y_count * z_count.
Proof.
  intros Hv. pose proof refs_length as Hn.
  assert (List.length recs <= List.length refs)%nat as Hle; [| lia].
  rewrite <- (length_map cell_of_block refs), <- (Permutation_length cover).
  apply length_flat_map_ge. eapply Forall_impl; [| exact Hv].
  intros b (Hx & Hy & Hz) Hnil.
  assert (In (bx b, by_ b, bz b, bdomain b) (cells_of_block b)) as Hin
    by (apply in_cells_of_block; repeat split; lia || reflexivity).
  rewrite Hnil in Hin. exact Hin.
Qed.

Lemma refs_sorted : StronglySorted cell_lt (map cell_of_block refs).
Proof.
  destruct reference as (_ & _ & Hg & _).
  apply StronglySorted_map.
  pose proof (grid_sorted x_count y_count z_count) as Hs. rewrite <- Hg in Hs.
  apply StronglySorted_map_inv in Hs.
  eapply StronglySorted_weaken; [| exact Hs]. intros a b H. exact H.
Qed.

Lemma ref_in_grid r :
  In r refs -> 0 <= bx r < x_count /\ 0 <= by_ r < y_count /\ 0 <= bz r < z_count.
Proof.
  destruct reference as (_ & _ & Hg & _). intros Hr.
  apply (in_map coords) in Hr. rewrite Hg in Hr. apply in_grid in Hr. exact Hr.
Qed.

Lemma valid_pair_plan :
  plan px py pz (Py.iota 0 pz (Z.to_nat ((z_count - 0 + pz - 1) / pz))) recs refs.
Proof.
  destruct candidate as (_ & _ & Hv & Hg & Hord).
  set (q := (z_count - 0 + pz - 1) / pz).
  assert (z_count <= pz * q) as Hq.
  { pose proof (Z.mul_succ_div_gt (z_count - 0 + pz - 1) pz pz_pos). fold q in H. lia. }
  assert (pz * q <= z_count + pz - 1) as Hq'.
  { pose proof (Z.mul_div_le (z_count - 0 + pz - 1) pz pz_pos). fold q in H. lia. }
  assert (0 <= q) by nia.
  apply (build_plan px py pz pz_pos (Z.to_nat q) 0).
  - apply Sorted_StronglySorted; [| exact Hord]. intros a b c. lia.
  - eapply Forall_impl; [| exact Hv]. intros b (_ & _ & _ & Hc). exact Hc.
  - apply Forall_forall. intros b Hb.
    rewrite Forall_forall in Hv, Hg.
    destruct (Hv _ Hb) as (_ & _ & Hz & Hc).
    destruct (Hg _ Hb) as (_ & _ & _ & _ & Hz0 & Hz1).
    split; [lia |]. rewrite Z2Nat.id by lia. simpl.
    destruct (Z.lt_ge_cases (bz b) (q * pz)) as [Hlt | Hge]; [exact Hlt | exfalso].
    assert (bz b = q * pz) as Eb by lia.
    assert (bsz b = 0) as Es by lia.
    apply (one_parent_z px py pz) in Hc. rewrite Eb, Es, Z.div_mul in Hc by lia.
    assert ((q * pz + 0 - 1) / pz < q) by (apply Z.div_lt_upper_bound; lia).
    lia.
  - exact refs_sorted.
  - apply Forall_forall. intros r Hr. apply ref_in_grid in Hr. nia.
  - intros i Hi.
    assert (In (0, 0, i * pz) (grid x_count y_count z_count)) as Hin
      by (apply in_grid; nia).
    destruct reference as (_ & _ & Hgrid & _). rewrite <- Hgrid in Hin.
    apply in_map_iff in Hin as (r & Er & Hr). inversion Er as [[E1 E2 E3]].
    exists r. split; [exact Hr |]. rewrite E3. apply Z.div_mul. lia.
  - exact cover.
Qed.

Lemma valid_pair_analyse :
  analyse (Line hdr :: body) out =
    ret (inject_Z (x_count * y_count * z_count - Z.of_nat (List.length recs))
         / inject_Z (x_count * y_count * z_count))%Q.
Proof.
  pose proof recs_nonempty as Hcount.
  pose proof valid_pair_plan as Hplan.
  destruct reference as (Hr1 & Hf1 & _).
  destruct candidate as (Hr2 & Hf2 & _).
  unfold analyse, get_header_info_of_file1. cbn [readline].
  rewrite bind_ret_l.
  assert (hdr <> EmptyString) as Hhdr.
  { intros ->. simpl in header. discriminate. }
  rewrite (proj2 (String.eqb_neq _ _) Hhdr).
  unfold try_except. cbn [ret]. cbn iota. fold (ret (A := string * file) (hdr, body)).
  rewrite bind_ret_l, header, bind_ret_l. unfold item. cbn [nth_error].
  rewrite !bind_ret_l.
  destruct (read_next_readable out 0 Hr2) as (n' & f2 & Er & Hr2' & D & _).
  rewrite Er, bind_ret_l.
  pose proof (data_lines_nonempty _ Hr2) as Hne.
  destruct recs as [| b bs] eqn:Erecs; [simpl in Hcount; lia |].
  inversion Hf2 as [| l ? ls ? Hp Hf2' E0]; subst.
  rewrite <- E0 in *. simpl hd. simpl tl in D.
  inversion Hne as [| ? ? Hl _]; subst.
  rewrite (proj2 (String.eqb_neq _ _) Hl).
  unfold Py.range3. rewrite (proj2 (Z.eqb_neq pz 0)) by lia.
  rewrite (proj2 (Z.ltb_lt 0 pz)) by lia.
  destruct (chunk_loop_ok px py pz px_pos py_pos pz_pos _ _ _ Hplan
              (State body 1 f2 l n' 0 0)) as (st' & Eloop & Ecount).
  - unfold presents. simpl. auto.
  - exact Hr1.
  - exact Hf1.
  - rewrite Eloop, bind_ret_l. unfold truediv.
    rewrite (proj2 (Z.eqb_neq _ 0)) by nia.
    simpl in Ecount. rewrite Ecount. reflexivity.
Qed.

End ValidPair.

(** ** Strings: the last comma and the trimmed label *)

Lemma rfind_ge c s : -1 <= Py.rfind c s.
Proof.
  induction s as [| a s IH]; simpl; [lia |].
  destruct (Z.eqb_spec (Py.rfind c s) (-1)); [destruct (Ascii.eqb a c) |]; lia.
Qed.

Lemma rfind_none c s : Py.mem c s = false -> Py.rfind c s = -1.
Proof.
  induction s as [| a s IH]; simpl; [reflexivity |].
  rewrite Ascii.eqb_sym. destruct (Ascii.eqb a c); [discriminate |].
  intros H. rewrite (IH H). reflexivity.
Qed.

Lemma length_append s t :
  String.length (s ++ t) = (String.length s + String.length t)%nat.
Proof. induction s as [| a s IH]; simpl; [| rewrite IH]; reflexivity. Qed.

Lemma rfind_last c s t :
  Py.mem c t = false -> Py.rfind c (s ++ String c t) = Py.len s.
Proof.
  intros Ht. induction s as [| a s IH]; cbn [String.append Py.rfind].
  - rewrite (rfind_none _ _ Ht), Ascii.eqb_refl. reflexivity.
  - rewrite IH. unfold Py.len. cbn [String.length].
    destruct (Z.eqb_spec (Z.of_nat (String.length s)) (-1)); lia.
Qed.

Lemma substring_all t : String.substring 0 (String.length t) t = t.
Proof. induction t as [| a t IH]; simpl; [| rewrite IH]; reflexivity. Qed.

Lemma substring_skip s t n m :
  String.substring (String.length s + n) m (s ++ t) = String.substring n m t.
Proof. induction s as [| a s IH]; simpl; [reflexivity | exact IH]. Qed.

Lemma slice_after s c t :
  Py.slice_from (Py.len s + 1) (s ++ String c t) = t.
Proof.
  unfold Py.slice_from, Py.clamp, Py.len. rewrite length_append. cbn [String.length].
  rewrite (proj2 (Z.ltb_ge _ _)) by lia.
  replace (Z.to_nat (Z.min _ _)) with (String.length s + 1)%nat by lia.
  rewrite substring_skip.
  replace (String.length s + S (String.length t) - (String.length s + 1))%nat
    with (String.length t) by lia.
  simpl. apply substring_all.
Qed.

Lemma lstrip_all chars p : all_in chars p = true -> Py.lstrip chars p = EmptyString.
Proof.
  induction p as [| a p IH]; simpl; [reflexivity |].
  intros H. apply andb_prop in H as [Ha Hp]. rewrite Ha. auto.
Qed.

Lemma rstrip_all chars p : all_in chars p = true -> Py.rstrip chars p = EmptyString.
Proof.
  induction p as [| a p IH]; simpl; [reflexivity |].
  intros H. apply andb_prop in H as [Ha Hp]. rewrite (IH Hp), Ha. reflexivity.
Qed.

Lemma lstrip_pad chars p s :
  all_in chars p = true -> Py.lstrip chars (p ++ s) = Py.lstrip chars s.
Proof.
  induction p as [| a p IH]; simpl; [reflexivity |].
  intros H. apply andb_prop in H as [Ha Hp]. rewrite Ha. auto.
Qed.

Lemma rstrip_pad chars s p :
  all_in chars p = true -> Py.rstrip chars (s ++ p) = Py.rstrip chars s.
Proof.
  intros Hp. induction s as [| a s IH]; cbn [String.append Py.rstrip].
  - apply rstrip_all. exact Hp.
  - rewrite IH. reflexivity.
Qed.

Lemma lstrip_app chars s t :
  Py.lstrip chars (s ++ t) =
    match Py.lstrip chars s with
    | EmptyString => Py.lstrip chars t
    | r => (r ++ t)%string
    end.
Proof.
  induction s as [| a s IH]; cbn [String.append Py.lstrip]; [reflexivity |].
  destruct (Py.mem a chars); [exact IH | reflexivity].
Qed.

Lemma strip_pad chars pad1 inner pad2 :
  all_in chars pad1 = true -> all_in chars pad2 = true ->
  Py.strip chars inner = inner ->
  Py.strip chars (pad1 ++ inner ++ pad2) = inner.
Proof.
  intros H1 H2 Hin. unfold Py.strip in *.
  rewrite (lstrip_pad _ _ _ H1), lstrip_app.
  destruct (Py.lstrip chars inner) as [| a r] eqn:E.
  - simpl in Hin. subst inner. rewrite (lstrip_all _ _ H2). reflexivity.
  - rewrite rstrip_pad by exact H2. exact Hin.
Qed.

(** The label [parse_line] returns. *)
Lemma parse_line_domain line n px py pz out b :
  parse_line line n px py pz = (out, Ok b) ->
  bdomain b =
    Py.strip strip_chars (Py.slice_from (Py.rfind "," line + 1) line).
Proof.
  unfold parse_line.
  destruct (Py.rfind "," line =? -1); [discriminate |].
  destruct (ints_of _) as [ints | bad]; [| discriminate].
  intros H.
  apply bind_ok_inv in H as (? & negative & ? & _ & H & _).
  destruct negative; [discriminate |].
  apply bind_ok_inv in H as (? & too_large & ? & _ & H & _).
  destruct too_large; [discriminate |].
  repeat (apply bind_ok_inv in H as (? & ? & ? & _ & H & _)).
  inversion H. reflexivity.
Qed.

Lemma explode_domain b line_count e :
  In e (explode b line_count) -> edomain e = bdomain b.
Proof.
  unfold explode. intros H.
  apply in_flat_map in H as (sz & _ & H). apply in_flat_map in H as (sy & _ & H).
  apply in_map_iff in H as (sx & <- & _). reflexivity.
Qed.

Lemma flat_map_nil {A B} (g : A -> list B) l :
  (forall a, g a = []) -> flat_map g l = [].
Proof. intros H. induction l as [| a l IH]; simpl; [| rewrite H, IH]; reflexivity. Qed.

Lemma explode_empty b line_count :
  bsx b = 0 \/ bsy b = 0 \/ bsz b = 0 -> explode b line_count = [].
Proof.
  unfold explode. intros [H | [H | H]]; rewrite H.
  - apply flat_map_nil. intros sz. apply flat_map_nil. intros sy. reflexivity.
  - apply flat_map_nil. intros sz. reflexivity.
  - reflexivity.
Qed.

(** ** The parser written for the reference file *)

(** Whatever [parse_and_check_line_of_file1] returns is a unit block. *)
Lemma parse_and_check_unit_sized x y z line n domains out b domains' :
  parse_and_check_line_of_file1 x y z line n domains = (out, Ok (b, domains')) ->
  unit_sized b.
Proof.
  unfold parse_and_check_line_of_file1, or_else.
  destruct (Py.rfind "," line =? -1); [discriminate |].
  destruct (ints_of _) as [ints | bad]; [| discriminate].
  intros H.
  apply bind_ok_inv in H as (? & i0 & ? & _ & H & _).
  destruct (negb (i0 =? x)); [discriminate |].
  apply bind_ok_inv in H as (? & i1 & ? & _ & H & _).
  destruct (negb (i1 =? y)); [discriminate |].
  apply bind_ok_inv in H as (? & i2 & ? & _ & H & _).
  destruct (negb (i2 =? z)); [discriminate |].
  apply bind_ok_inv in H as (? & not_unit & ? & Hu & H & _).
  destruct not_unit; [discriminate |].
  apply bind_ok_inv in H as (? & i3 & ? & H3 & H & _).
  apply bind_ok_inv in H as (? & i4 & ? & H4 & H & _).
  apply bind_ok_inv in H as (? & i5 & ? & H5 & H & _).
  inversion H; subst. unfold unit_sized. simpl.
  rewrite H3, H4, H5 in Hu. unfold bind, ret in Hu. simpl in Hu.
  destruct (Z.eqb_spec i3 1); simpl in Hu; [| discriminate].
  destruct (Z.eqb_spec i4 1); simpl in Hu; [| discriminate].
  destruct (Z.eqb_spec i5 1); simpl in Hu; [| discriminate].
  auto.
Qed.

(** ** Every run ends, with one of the listed statuses *)

Lemma sound_ret {A} (a : A) : sound (ret a).
Proof. exact I. Qed.

Lemma sound_exit {A} out code : In code exit_codes -> sound ((out, Raise (SystemExit code)) : M A).
Proof. intros H. exact H. Qed.

Lemma sound_bind {A B} (m : M A) (f : A -> M B) :
  sound m -> (forall out a, m = (out, Ok a) -> sound (f a)) -> sound (bind m f).
Proof.
  destruct m as [out [a | e |]]; simpl; intros Hm Hf.
  - specialize (Hf out a eq_refl). unfold sound in *. destruct (f a) as [out' r]. exact Hf.
  - exact Hm.
  - exact Hm.
Qed.

Ltac in_codes :=
  unfold exit_codes; simpl; repeat first [left; reflexivity | right].

Ltac sound_tac :=
  repeat first
    [ apply sound_ret
    | apply sound_exit; in_codes
    | exact I
    | apply sound_bind; [| intros ? ? _]
    | match goal with
      | |- sound (if ?c then _ else _) => destruct c
      | |- sound (match ?x with _ => _ end) => destruct x
      end ].

Lemma sound_item l i : sound (item l i).
Proof. unfold item. destruct (nth_error l i); exact I. Qed.

Lemma sound_parse_line line n px py pz : sound (parse_line line n px py pz).
Proof.
  unfold parse_line, file_format_error_and_exit, or_else, die, sys_exit, raise, print, item.
  sound_tac.
Qed.

Lemma sound_read_failed {A} n e : sound (read_failed n e : M A).
Proof. unfold read_failed, die, sys_exit, raise, print. destruct e; simpl; in_codes. Qed.

Lemma sound_read_next f : forall n, sound (read_next_line_of_input f n).
Proof.
  induction f as [| ev f IH]; intros n; simpl; [exact I |].
  destruct ev as [line | e]; [| apply sound_read_failed].
  destruct line as [| c line]; [exact I |].
  destruct (_ || _); [apply IH | exact I].
Qed.

Lemma read_next_shrinks f : forall n out line n' f',
  read_next_line_of_input f n = (out, Ok (line, n', f')) ->
  line <> EmptyString -> (List.length f' < List.length f)%nat.
Proof.
  induction f as [| ev f IH]; intros n out line n' f' H Hl; simpl in H.
  - inversion H; subst. contradiction.
  - destruct ev as [l | e].
    + destruct l as [| c l].
      * inversion H; subst. contradiction.
      * destruct (_ || _).
        -- apply IH in H; auto. simpl. lia.
        -- inversion H; subst. simpl. lia.
    + unfold read_failed in H. destruct e; discriminate.
Qed.

Lemma sound_read_chunk px py pz z : forall fuel st chunk,
  (List.length (file2 st) < fuel)%nat -> sound (read_chunk px py pz fuel z st chunk).
Proof.
  induction fuel as [| fuel IH]; intros st chunk Hfuel; [lia |].
  cbn [read_chunk].
  apply sound_bind; [apply sound_parse_line |]. intros _ b _.
  unfold floordiv, die, sys_exit, raise, print.
  destruct (bz b <? z); [apply sound_exit; in_codes |].
  destruct (px =? 0); [exact I |]. rewrite !bind_ret_l.
  destruct (negb _); [apply sound_exit; in_codes |].
  destruct (py =? 0); [exact I |]. rewrite !bind_ret_l.
  destruct (negb _); [apply sound_exit; in_codes |].
  destruct (pz =? 0); [exact I |]. rewrite !bind_ret_l.
  destruct (negb _); [apply sound_exit; in_codes |].
  destruct (_ <? _); [exact I |].
  apply sound_bind; [apply sound_read_next |]. intros out [[line n'] f2] Hr.
  destruct (String.eqb_spec line EmptyString) as [| Hl]; [exact I |].
  apply IH. simpl. apply read_next_shrinks in Hr; auto. lia.
Qed.

Lemma sound_check_chunk es : forall f1 n, sound (check_chunk es f1 n).
Proof.
  induction es as [| e es IH]; intros f1 n; cbn [check_chunk]; [exact I |].
  apply sound_bind; [apply sound_read_next |]. intros _ [[line n'] f1'] _.
  destruct (String.eqb line EmptyString); [apply sound_exit; in_codes |].
  apply sound_bind; [apply sound_parse_line |]. intros _ b _.
  destruct (_ || _); [apply sound_exit; in_codes |].
  destruct (negb _); [apply sound_exit; in_codes | apply IH].
Qed.

Lemma sound_chunk_loop px py pz zs : forall st, sound (chunk_loop px py pz zs st).
Proof.
  induction zs as [| z zs IH]; intros st; cbn [chunk_loop]; [exact I |].
  apply sound_bind; [| intros; apply IH].
  unfold chunk_body.
  apply sound_bind; [apply sound_read_chunk; lia |]. intros _ [st1 chunk] _.
  apply sound_bind; [apply sound_check_chunk |]. intros _ [f1 n] _. exact I.
Qed.

Lemma sound_header f1 n : sound (get_header_info_of_file1 f1 n).
Proof.
  unfold get_header_info_of_file1.
  apply sound_bind.
  - destruct f1 as [| [line | e] f1]; simpl.
    + in_codes.
    + destruct (String.eqb line EmptyString); simpl; [in_codes | exact I].
    + pose proof (@sound_read_failed (string * file) n e) as H.
      unfold sound in *. destruct (read_failed n e). exact H.
  - intros _ [line f1'] _.
    apply sound_bind; [| intros; exact I].
    unfold parse_line1_of_file1, die, sys_exit, raise, print. sound_tac.
Qed.

Lemma sound_analyse f1 f2 : sound (analyse f1 f2).
Proof.
  unfold analyse.
  apply sound_bind; [apply sound_header |]. intros _ [ints f1'] _.
  repeat (apply sound_bind; [apply sound_item |]; intros _ ? _).
  apply sound_bind; [apply sound_read_next |]. intros _ [[line n] f2'] _.
  destruct (String.eqb line EmptyString); [apply sound_exit; in_codes |].
  destruct (Py.range3 _ _ _); [| exact I].
  apply sound_bind; [apply sound_chunk_loop |]. intros _ st _.
  unfold truediv. destruct (_ =? 0); exact I.
Qed.

Lemma sound_main e : sound (main e).
Proof.
  unfold main, die, sys_exit, raise, print.
  destruct (negb (isfile e _)); [simpl; in_codes |].
  destruct (negb (_ || _)); [simpl; in_codes |].
  destruct (negb (isfile e _)); [simpl; in_codes |].
  apply sound_bind.
  { destruct (speed e); [| exact I].
    destruct (negb _); [simpl; in_codes |].
    destruct (negb _); [simpl; in_codes | exact I]. }
  intros _ _ _. apply sound_bind.
  { destruct (negb _); [simpl; in_codes | exact I]. }
  intros _ _ _. apply sound_bind; [apply sound_analyse |]. intros _ c _.
  destruct (speed e); [| exact I].
  unfold truediv_time, narrated_rate.
  destruct (Qeq_bool (item_under_test_time e) 0); [exact I |].
  destruct (Qeq_bool (baseline_time e) 0); exact I.
Qed.

(** Every run ends, and its exit status is one of 0, 1, 10, 11, 12, 13,
    14, 100, 200 and 300. *)
Lemma main_exit_status e :
  exists code, exit_status (snd (main e)) = Some code /\ In code exit_codes.
Proof.
  pose proof (sound_main e) as H. unfold sound in H.
  destruct (snd (main e)) as [a | [code | | | | |] |]; simpl;
    try contradiction; eexists; (split; [reflexivity |]); try exact H; in_codes.
Qed.

(** ** Tactics for concrete streams *)

Ltac parses_all :=
  repeat first
    [ apply Forall2_nil
    | apply Forall2_cons; [intros n; vm_compute; reflexivity |] ].

Ltac readable_all :=
  unfold readable; repeat (constructor; try discriminate).

Ltac presents_one :=
  split; [readable_all | split; [discriminate | split;
    [intros n; vm_compute; reflexivity | constructor]]].

(** * The claims *)




(** C2.  The chunk that is compared is the assembled chunk sorted in
    ascending [(z, y, x)] order, and the comparison accepts it exactly
    when the reference reader delivers as many records as the chunk has
    entries and every pair, taken in order, agrees in its coordinates and
    its domain string.  At the first pair that disagrees the run ends with
    exit status 1 and a diagnostic that names the block: the coordinates
    when they differ, the coordinates and both domains otherwise. *)
Theorem chunk_sorted_and_compared :
  forall chunk_list : list entry,
    (forall px py pz z st,
       chunk_body px py pz z st =
         '(st, unsorted) <- read_chunk px py pz (S (List.length (file2 st))) z st [] ;;
         '(f1, line_count) <-
            check_chunk (sort unsorted) (file1 st) (line_count_f1 st) ;;
         ret (State f1 line_count (file2 st) (line_f2 st) (line_count_f2 st)
                (line_count_f2_last_chunk_end st) (block_count_f2 st))) /\
    StronglySorted zyx_le (sort chunk_list) /\
    Permutation chunk_list (sort chunk_list) /\
    (forall f1 line_count f1' line_count',
       (exists out, check_chunk (sort chunk_list) f1 line_count
                    = (out, Ok (f1', line_count'))) <->
       (exists bs,
          next_unit_blocks (List.length chunk_list) f1 line_count
            = Some (bs, f1', line_count') /\
          Forall2 same_block (sort chunk_list) bs)) /\
    (forall es1 e es2 bs1 b f1 line_count f1' line_count',
       sort chunk_list = es1 ++ e :: es2 ->
       Forall2 same_block es1 bs1 ->
       next_unit_blocks (S (List.length es1)) f1 line_count
         = Some (bs1 ++ [b], f1', line_count') ->
       (~ same_position e b ->
        check_chunk (sort chunk_list) f1 line_count =
          ([BlockMissing (bx b) (by_ b) (bz b)], Raise (SystemExit 1))) /\
       (same_position e b -> edomain e <> bdomain b ->
        check_chunk (sort chunk_list) f1 line_count =
          ([BlockShouldBe (bx b) (by_ b) (bz b) (edomain e) (eline e) (bdomain b)],
           Raise (SystemExit 1)))).
Proof.
  intros chunk_list. split; [reflexivity |]. split; [| split; [apply sort_perm |]].
  { eapply StronglySorted_weaken; [| apply sort_sorted].
    intros a b. unfold key_le, zyx_le, sort_key. intros H.
    destruct a, b; simpl in *. revert H. key_cases. }
  split.
  - intros f1 lc f1' lc'.
    rewrite (Permutation_length (sort_perm chunk_list)).
    rewrite <- check_chunk_accepts. split.
    + intros (out & H). rewrite (quiet_check_chunk _ _ _ _ _ H) in H. exact H.
    + intros H. exists []. exact H.
  - intros es1 e es2 bs1 b f1 lc f1' lc' -> Hsame Hnext.
    exact (check_chunk_rejects es1 bs1 Hsame e es2 b f1 lc f1' lc' Hnext).
Qed.

Lemma chunk_sorted_and_compared_witness :
  check_chunk (sort [Entry 0 0 0 "ore" 1]) waste_ref_body 1 =
    ([BlockShouldBe 0 0 0 "ore" 1 "waste"], Raise (SystemExit 1)).
Proof.
  refine (proj2 (proj2 (proj2 (proj2 (proj2
    (chunk_sorted_and_compared [Entry 0 0 0 "ore" 1]))))
      [] (Entry 0 0 0 "ore" 1) [] [] (Block 0 0 0 1 1 1 "waste")
      waste_ref_body 1 [] 2 _ _ _) _ _).
  - reflexivity.
  - constructor.
  - vm_compute. reflexivity.
  - repeat split.
  - discriminate.
Defined.

(** C3 (as amended).  Every block that the chunk loop pulls and that
    crosses a parent-block boundary along some axis ends the run with exit
    status 1 before the chunk is compared: with the earlier-chunk
    diagnostic when its z lies before the slab origin, otherwise with the
    crossing diagnostic of the first axis, in the order x, y, z, along
    which it crosses.  This holds of any iteration of the loop, and so of
    the chunk in which the block follows blocks of the slab.  (Grid bounds
    are not tested.) *)
Theorem crossing_block_stops_chunk :
  forall px py pz,
    0 < px -> 0 < py -> 0 < pz ->
    (forall fuel z st chunk_list b,
       parse_line (line_f2 st) (line_count_f2 st) px py pz = ret b ->
       crosses_some px py pz b = true ->
       (bz b < z ->
        read_chunk px py pz (S fuel) z st chunk_list =
          ([EarlierChunk (line_count_f2 st) (line_f2 st)
              (line_count_f2_last_chunk_end st - 1)],
           Raise (SystemExit 1))) /\
       (z <= bz b ->
        exists a,
          first_crossing px py pz b = Some a /\
          read_chunk px py pz (S fuel) z st chunk_list =
            ([CrossesParentBoundary a (line_count_f2 st) (line_f2 st)],
             Raise (SystemExit 1)))) /\
    (forall z st good b rest,
       presents px py pz (line_f2 st) (file2 st) (good ++ b :: rest) ->
       Forall (in_slab px py pz z) good ->
       crosses_some px py pz b = true ->
       exists line line_count msg,
         parses px py pz line b /\
         chunk_body px py pz z st = ([msg], Raise (SystemExit 1)) /\
         (bz b < z ->
          msg = EarlierChunk line_count line (line_count_f2_last_chunk_end st - 1)) /\
         (z <= bz b ->
          exists a, first_crossing px py pz b = Some a /\
                    msg = CrossesParentBoundary a line_count line)).
Proof.
  intros px py pz Hpx Hpy Hpz. split.
  - intros fuel z st chunk_list b Hp Hcross. split.
    + intros Hlt. exact (read_chunk_earlier px py pz Hpx Hpy Hpz _ _ _ _ b Hp Hlt).
    + intros Hge. destruct (first_crossing_some px py pz b Hcross) as (a & Ha).
      exists a. split; [exact Ha |].
      exact (read_chunk_crossing px py pz Hpx Hpy Hpz _ _ _ _ b a Hp Hge Ha).
  - intros z st good b rest Hpres Hgood Hcross.
    destruct (read_chunk_prefix px py pz Hpx Hpy Hpz good b rest st []
                (S (List.length (file2 st))) z Hpres Hgood)
      as (st' & chunk & fuel & Erun & (Hr & Hl & Hp & Hf) & _ & _ & Hlce & _); [lia |].
    exists (line_f2 st'), (line_count_f2 st').
    unfold chunk_body. rewrite Erun.
    destruct (first_crossing_some px py pz b Hcross) as (a & Ha).
    destruct (Z.ltb_spec (bz b) z) as [Hlt | Hge].
    + rewrite (read_chunk_earlier px py pz Hpx Hpy Hpz _ _ _ _ b (Hp _) Hlt).
      eexists. split; [exact Hp |]. split; [reflexivity |].
      split; [intros _; rewrite Hlce; reflexivity | lia].
    + rewrite (read_chunk_crossing px py pz Hpx Hpy Hpz _ _ _ _ b a (Hp _) Hge Ha).
      eexists. split; [exact Hp |]. split; [reflexivity |].
      split; [lia | intros _; exists a; auto].
Qed.

Lemma crossing_block_stops_chunk_witness :
  exists line line_count msg,
    parses 2 1 1 line (Block 1 0 0 2 1 1 "a") /\
    chunk_body 2 1 1 0 crossing_block = ([msg], Raise (SystemExit 1)) /\
    (0 < 0 -> msg = EarlierChunk line_count line (0 - 1)) /\
    (0 <= 0 -> exists a, first_crossing 2 1 1 (Block 1 0 0 2 1 1 "a") = Some a /\
                         msg = CrossesParentBoundary a line_count line).
Proof.
  refine (proj2 (crossing_block_stops_chunk 2 1 1 _ _ _) 0 crossing_block []
            (Block 1 0 0 2 1 1 "a") [] _ _ _); try reflexivity.
  - presents_one.
  - constructor.
Defined.

(** C3 (as stated) fails: a block outside the grid is accepted. *)
Lemma out_of_grid_block_accepted :
  parse_line ("5,5,5,1,1,1,a" ++ Py.nl)%string 2 1 1 1 = ret (Block 5 5 5 1 1 1 "a") /\
  ~ (5 + 1 <= 1) /\
  plain_run cell_ref stray_out = ([], Ok [0 # 1]).
Proof. repeat split; try (vm_compute; reflexivity). lia. Qed.

(** C4 (as amended).  While the slab that starts at [z] is assembled, a
    pulled block whose z lies before [z] ends the run with exit status 1,
    and a pulled block whose z lies at or beyond [z + parent_size_z] and
    that crosses no parent boundary closes the slab: the loop returns the
    chunk as it stands, does not count or explode the block, and leaves it
    as the pending line with which the next slab starts.  This holds of
    any iteration of the loop, and so of the chunk in which the block
    follows blocks of the slab. *)
Theorem slab_order_enforced :
  forall px py pz,
    0 < px -> 0 < py -> 0 < pz ->
    (forall fuel z st chunk_list b,
       parse_line (line_f2 st) (line_count_f2 st) px py pz = ret b ->
       (bz b < z ->
        read_chunk px py pz (S fuel) z st chunk_list =
          ([EarlierChunk (line_count_f2 st) (line_f2 st)
              (line_count_f2_last_chunk_end st - 1)],
           Raise (SystemExit 1))) /\
       (z + pz <= bz b -> crosses_some px py pz b = false ->
        read_chunk px py pz (S fuel) z st chunk_list =
          ret (State (file1 st) (line_count_f1 st) (file2 st) (line_f2 st)
                 (line_count_f2 st) (line_count_f2 st) (block_count_f2 st),
               chunk_list))) /\
    (forall z st good b rest,
       presents px py pz (line_f2 st) (file2 st) (good ++ b :: rest) ->
       Forall (in_slab px py pz z) good ->
       (bz b < z ->
        exists line line_count,
          parses px py pz line b /\
          chunk_body px py pz z st =
            ([EarlierChunk line_count line (line_count_f2_last_chunk_end st - 1)],
             Raise (SystemExit 1))) /\
       (z + pz <= bz b -> crosses_some px py pz b = false ->
        exists st' chunk,
          read_chunk px py pz (S (List.length (file2 st))) z st [] = ret (st', chunk) /\
          presents px py pz (line_f2 st') (file2 st') (b :: rest) /\
          map cell_of_entry chunk = flat_map cells_of_block good /\
          block_count_f2 st' = block_count_f2 st + Z.of_nat (List.length good) /\
          line_count_f2_last_chunk_end st' = line_count_f2 st')).
Proof.
  intros px py pz Hpx Hpy Hpz. split.
  - intros fuel z st chunk_list b Hp. split.
    + intros Hlt. exact (read_chunk_earlier px py pz Hpx Hpy Hpz _ _ _ _ b Hp Hlt).
    + intros Hge Hc. apply (read_chunk_close px py pz Hpx Hpy Hpz _ _ _ _ b Hp).
      split; [lia | exact Hc].
  - intros z st good b rest Hpres Hgood.
    destruct (read_chunk_prefix px py pz Hpx Hpy Hpz good b rest st []
                (S (List.length (file2 st))) z Hpres Hgood)
      as (st1 & chunk & fuel & Erun & Hpres1 & _ & _ & Hlce & Hcount & Hcells); [lia |].
    pose proof Hpres1 as (Hr & Hl & Hp & Hf).
    split.
    + intros Hlt. exists (line_f2 st1), (line_count_f2 st1).
      split; [exact Hp |]. unfold chunk_body. rewrite Erun.
      rewrite (read_chunk_earlier px py pz Hpx Hpy Hpz _ _ _ _ b (Hp _) Hlt).
      rewrite Hlce. reflexivity.
    + intros Hge Hc. rewrite Erun.
      rewrite (read_chunk_close px py pz Hpx Hpy Hpz _ _ _ _ b (Hp _))
        by (split; [lia | exact Hc]).
      eexists _, _. split; [reflexivity |]. simpl. auto.
Qed.

Lemma slab_order_enforced_witness :
  exists st' chunk,
    read_chunk 1 1 1 (S (List.length (file2 second_slab_block))) 0 second_slab_block []
      = ret (st', chunk) /\
    presents 1 1 1 (line_f2 st') (file2 st') [Block 0 0 1 1 1 1 "a"] /\
    map cell_of_entry chunk = [] /\
    block_count_f2 st' = 0 /\
    line_count_f2_last_chunk_end st' = line_count_f2 st'.
Proof.
  refine (proj2 (proj2 (slab_order_enforced 1 1 1 _ _ _) 0 second_slab_block []
                   (Block 0 0 1 1 1 1 "a") [] _ _) _ _);
    try reflexivity; try (simpl; lia).
  - presents_one.
  - constructor.
Defined.

(** C4 (as stated) fails: a block beyond the slab that crosses a parent
    boundary ends the run instead of closing the slab. *)
Lemma beyond_block_not_retained :
  parse_line (line_f2 beyond_crossing) (line_count_f2 beyond_crossing) 2 1 1
    = ret (Block 1 0 1 2 1 1 "a") /\
  0 + 1 <= 1 /\
  read_chunk 2 1 1 1 0 beyond_crossing [] =
    ([CrossesParentBoundary AxisX 1 ("1,0,1,2,1,1,a" ++ Py.nl)%string],
     Raise (SystemExit 1)).
Proof. repeat split; try (vm_compute; reflexivity). lia. Qed.

(** C5.  The claim holds of no candidate that stops inside the last slab:
    on a 2x1x1 grid an output with the first cell only is accepted, with
    compression 1/2. *)
Theorem short_candidate_accepted :
  plain_run short_ref short_out = ([], Ok [1 # 2]) /\
  exit_status (snd (plain_run short_ref short_out)) = Some 0.
Proof. split; vm_compute; reflexivity. Qed.

(** C6 (as amended).  The domain of a parsed line is the text after its
    last comma with the characters apostrophe, space, line feed and
    carriage return removed from both ends, and no others; in
    particular a label written with any such characters around it is read
    as the bare label, so that a reference and a candidate that pad the
    same label differently carry the same domain.  Every entry of a chunk
    carries the domain of its block, and the comparison is the equality
    of the two strings. *)
Theorem domain_is_trimmed_label :
  (forall line n px py pz out b,
     parse_line line n px py pz = (out, Ok b) ->
     bdomain b =
       Py.strip strip_chars (Py.slice_from (Py.rfind "," line + 1) line)) /\
  (forall fields pad1 inner pad2 n px py pz out b,
     all_in strip_chars pad1 = true ->
     all_in strip_chars pad2 = true ->
     Py.mem "," (pad1 ++ inner ++ pad2) = false ->
     Py.strip strip_chars inner = inner ->
     parse_line (fields ++ "," ++ pad1 ++ inner ++ pad2)%string n px py pz
       = (out, Ok b) ->
     bdomain b = inner) /\
  (forall b line_count e, In e (explode b line_count) -> edomain e = bdomain b) /\
  (forall e rest f1 n line n' f1' b,
     read_next_line_of_input f1 n = ret (line, n', f1') ->
     line <> EmptyString ->
     parse_line line n' 1 1 1 = ret b ->
     same_position e b ->
     check_chunk (e :: rest) f1 n =
       if String.eqb (edomain e) (bdomain b) then check_chunk rest f1' n'
       else die 1 (BlockShouldBe (bx b) (by_ b) (bz b)
                     (edomain e) (eline e) (bdomain b))).
Proof.
  split; [exact parse_line_domain |]. split; [| split; [exact explode_domain |]].
  - intros fields pad1 inner pad2 n px py pz out b H1 H2 Hc Hin Hp.
    rewrite (parse_line_domain _ _ _ _ _ _ _ Hp).
    change (fields ++ "," ++ pad1 ++ inner ++ pad2)%string
      with (fields ++ String "," (pad1 ++ inner ++ pad2))%string.
    rewrite (rfind_last _ _ _ Hc), slice_after.
    apply strip_pad; assumption.
  - intros e rest f1 n line n' f1' b Hr Hl Hp Hpos.
    rewrite (check_chunk_cons _ _ _ _ _ _ _ _ Hr Hl Hp).
    rewrite (proj2 (same_position_test _ _) Hpos).
    destruct (String.eqb (edomain e) (bdomain b)); reflexivity.
Qed.

Lemma domain_is_trimmed_label_witness :
  parse_line ("0,0,0,2,2,1, ''ore' " ++ Py.nl)%string 1 2 2 1
    = ([], Ok (Block 0 0 0 2 2 1 "ore")) /\
  bdomain (Block 0 0 0 2 2 1 "ore") = "ore".
Proof.
  split; [vm_compute; reflexivity |].
  refine (proj1 (proj2 domain_is_trimmed_label)
            "0,0,0,2,2,1" " ''" "ore" ("' " ++ Py.nl)%string 1 2 2 1 []
            (Block 0 0 0 2 2 1 "ore") _ _ _ _ _); vm_compute; reflexivity.
Defined.

(** C6 (as stated) fails: the same label in double quotes and in
    apostrophes gives two different domains, and the run ends with the
    domain diagnostic. *)
Lemma double_quotes_kept :
  parse_line ("0,0,0,1,1,1," ++ dquoted "ore" ++ Py.nl)%string 2 1 1 1
    = ret (Block 0 0 0 1 1 1 (dquoted "ore")) /\
  parse_line ("0,0,0,1,1,1,'ore'" ++ Py.nl)%string 1 1 1 1
    = ret (Block 0 0 0 1 1 1 "ore") /\
  dquoted "ore" <> "ore" /\
  plain_run dquoted_ref quoted_out =
    ([BlockShouldBe 0 0 0 "ore" 1 (dquoted "ore")], Raise (SystemExit 1)).
Proof. repeat split; try (vm_compute; reflexivity). discriminate. Qed.

(** C7.  The reference lines are parsed by [parse_line] with parent sizes
    1, 1, 1, which accepts size fields equal to 0: a reference whose data
    line has sizes 0,0,0 is read without any diagnostic and the run
    succeeds, where [parse_and_check_line_of_file1], which nothing calls,
    stops with "expecting unit sized blocks only"; a size field of 2 is
    refused with "block is too large". *)
Theorem reference_zero_size_accepted :
  parse_line ("0,0,0,0,0,0,a" ++ Py.nl)%string 2 1 1 1 = ret (Block 0 0 0 0 0 0 "a") /\
  plain_run sizeless_ref cell_out = ([], Ok [0 # 1]) /\
  parse_and_check_line_of_file1 0 0 0 ("0,0,0,0,0,0,a" ++ Py.nl)%string 2 [] =
    ([UnitSizedBlocksOnly 2 ("0,0,0,0,0,0,a" ++ Py.nl)%string], Raise (SystemExit 1)) /\
  parse_line ("0,0,0,2,1,1,a" ++ Py.nl)%string 2 1 1 1 =
    ([BlockIsTooLarge 2 ("0,0,0,2,1,1,a" ++ Py.nl)%string], Raise (SystemExit 1)).
Proof. repeat split; vm_compute; reflexivity. Qed.

(** C8.  With a header whose counts multiply to 0 the division is
    performed and raises [ZeroDivisionError]. *)
Theorem empty_grid_divides_by_zero :
  plain_run empty_grid_ref cell_out = ([], Raise ZeroDivisionError) /\
  exit_status (snd (plain_run empty_grid_ref cell_out)) = Some 1.
Proof. split; vm_compute; reflexivity. Qed.

(** C9.  An empty reference file is an unexpected end of input, yet the
    run exits with status 300: the [sys.exit(100)] is caught by the bare
    [except:] around it. *)
Theorem empty_reference_exits_300 :
  plain_run [] cell_out =
    ([UnexpectedEndOfInput 1; FailedToReadLine 1 (ExcClass (SystemExit 100))],
     Raise (SystemExit 300)) /\
  exit_status (snd (plain_run [] cell_out)) = Some 300.
Proof. split; vm_compute; reflexivity. Qed.

(** C10.  A candidate block with a size field equal to 0 that passes the
    tests of the chunk loop is counted as one more candidate block and
    adds no entry to the chunk; and there is a run that passes with such
    blocks in which the count of candidate blocks exceeds the count of
    reference blocks, so that the value printed is negative. *)
Theorem empty_block_counted :
  (forall px py pz fuel z st chunk_list b,
     0 < px -> 0 < py -> 0 < pz ->
     parse_line (line_f2 st) (line_count_f2 st) px py pz = ret b ->
     bsx b = 0 \/ bsy b = 0 \/ bsz b = 0 ->
     in_slab px py pz z b ->
     explode b (line_count_f2 st) = [] /\
     read_chunk px py pz (S fuel) z st chunk_list =
       '(line, line_count, f2) <-
          read_next_line_of_input (file2 st) (line_count_f2 st) ;;
       let st' := State (file1 st) (line_count_f1 st) f2 line line_count
                    (line_count_f2_last_chunk_end st) (block_count_f2 st + 1) in
       if String.eqb line EmptyString then ret (st', chunk_list)
       else read_chunk px py pz fuel z st' chunk_list) /\
  (plain_run padded_ref padded_out = ([], Ok [-2 # 1]) /\ (-2 # 1 < 0)%Q).
Proof.
  split.
  - intros px py pz fuel z st chunk_list b Hpx Hpy Hpz Hp Hsize Hin.
    pose proof (explode_empty b (line_count_f2 st) Hsize) as He.
    split; [exact He |].
    rewrite (read_chunk_take px py pz Hpx Hpy Hpz _ _ _ _ b Hp Hin).
    rewrite He, app_nil_r. reflexivity.
  - split; [vm_compute; reflexivity | reflexivity].
Qed.

Lemma empty_block_counted_witness :
  explode (Block 1 0 0 0 1 1 "a") (line_count_f2 empty_block) = [] /\
  read_chunk 2 2 2 1 0 empty_block [] =
    ret (State [] 1 [] EmptyString 2 0 1, []).
Proof.
  refine (proj1 empty_block_counted 2 2 2 0%nat 0 empty_block []
            (Block 1 0 0 0 1 1 "a") _ _ _ _ _ _); try reflexivity.
  - left. reflexivity.
  - split; [simpl; lia | reflexivity].
Defined.

(** * Further properties of the script *)

(** ** Nothing is printed on [stderr] by a run that succeeds *)

Lemma quiet_read_chunk px py pz z : forall fuel st chunk,
  quiet (read_chunk px py pz fuel z st chunk).
Proof.
  induction fuel as [| fuel IH]; intros st chunk; cbn [read_chunk].
  - intros out a H. discriminate.
  - apply quiet_bind; [apply quiet_parse_line |]. intros b.
    unfold floordiv, die, sys_exit, raise, print.
    destruct (bz b <? z); [apply quiet_raise |].
    destruct (px =? 0); [apply quiet_raise |]. rewrite !bind_ret_l.
    destruct (negb _); [apply quiet_raise |].
    destruct (py =? 0); [apply quiet_raise |]. rewrite !bind_ret_l.
    destruct (negb _); [apply quiet_raise |].
    destruct (pz =? 0); [apply quiet_raise |]. rewrite !bind_ret_l.
    destruct (negb _); [apply quiet_raise |].
    destruct (_ <? _); [apply quiet_ret |].
    apply quiet_bind; [apply quiet_read_next |]. intros [[line n'] f2].
    destruct (String.eqb line EmptyString); [apply quiet_ret | apply IH].
Qed.

Lemma quiet_chunk_loop px py pz zs : forall st, quiet (chunk_loop px py pz zs st).
Proof.
  induction zs as [| z zs IH]; intros st; cbn [chunk_loop]; [apply quiet_ret |].
  apply quiet_bind; [| intros; apply IH].
  unfold chunk_body.
  apply quiet_bind; [apply quiet_read_chunk |]. intros [st1 chunk].
  apply quiet_bind; [apply quiet_check_chunk |]. intros [f1 n]. apply quiet_ret.
Qed.

Lemma quiet_read_failed {A} n e : quiet (read_failed n e : M A).
Proof. unfold read_failed. destruct e; apply quiet_raise. Qed.

Lemma quiet_header f1 n : quiet (get_header_info_of_file1 f1 n).
Proof.
  unfold get_header_info_of_file1.
  apply quiet_bind.
  - destruct f1 as [| [line | e] f1]; simpl.
    + apply quiet_raise.
    + destruct (String.eqb line EmptyString); simpl; [apply quiet_raise | apply quiet_ret].
    + unfold read_failed. destruct e; simpl; apply quiet_raise.
  - intros [line f1']. apply quiet_bind; [| intros; apply quiet_ret].
    unfold parse_line1_of_file1, die, sys_exit, raise, print. quiet_tac.
Qed.

Lemma quiet_analyse f1 f2 : quiet (analyse f1 f2).
Proof.
  unfold analyse.
  apply quiet_bind; [apply quiet_header |]. intros [ints f1'].
  repeat (apply quiet_bind; [apply quiet_item |]; intros ?).
  apply quiet_bind; [apply quiet_read_next |]. intros [[line n] f2'].
  destruct (String.eqb line EmptyString); [apply quiet_raise |].
  destruct (Py.range3 _ _ _); [| apply quiet_raise].
  apply quiet_bind; [apply quiet_chunk_loop |]. intros st.
  unfold truediv. destruct (_ =? 0); [apply quiet_raise | apply quiet_ret].
Qed.




(** ** The statuses of the analysis and of the checks before it *)

Lemma within_bind {A B} codes (m : M A) (f : A -> M B) :
  exits_within codes m -> (forall a, exits_within codes (f a)) ->
  exits_within codes (bind m f).
Proof.
  destruct m as [out [a | e |]]; simpl; intros Hm Hf; try exact Hm.
  specialize (Hf a). unfold exits_within in *. destruct (f a) as [out' r]. exact Hf.
Qed.

Ltac in_analysis_codes :=
  unfold analysis_codes; simpl; repeat first [left; reflexivity | right].

Ltac within_tac :=
  repeat first
    [ exact I
    | progress in_analysis_codes
    | apply within_bind; [| intros ?]
    | match goal with
      | |- exits_within _ (if ?c then _ else _) => destruct c
      | |- exits_within _ (match ?x with _ => _ end) => destruct x
      end ].

Lemma within_parse_line line n px py pz :
  exits_within analysis_codes (parse_line line n px py pz).
Proof.
  unfold parse_line, file_format_error_and_exit, or_else, die, sys_exit, raise, print, item.
  within_tac.
Qed.

Lemma within_read_next f : forall n,
  exits_within analysis_codes (read_next_line_of_input f n).
Proof.
  induction f as [| ev f IH]; intros n; simpl; [exact I |].
  destruct ev as [line | e].
  - destruct line as [| c line]; [exact I |].
    destruct (_ || _); [apply IH | exact I].
  - unfold read_failed. destruct e; simpl; in_analysis_codes.
Qed.

Lemma within_read_chunk px py pz z : forall fuel st chunk,
  (List.length (file2 st) < fuel)%nat ->
  exits_within analysis_codes (read_chunk px py pz fuel z st chunk).
Proof.
  induction fuel as [| fuel IH]; intros st chunk Hfuel; [lia |].
  cbn [read_chunk].
  pose proof (within_parse_line (line_f2 st) (line_count_f2 st) px py pz) as Hp.
  destruct (parse_line _ _ _ _ _) as [out [b | e |]]; try exact Hp.
  cbn [bind].
  match goal with |- exits_within _ (let (_, _) := ?m in _) =>
    assert (exits_within analysis_codes m) as Hm; [| unfold exits_within in *;
      destruct m; exact Hm] end.
  unfold floordiv, die, sys_exit, raise, print.
  destruct (bz b <? z); [simpl; in_analysis_codes |].
  destruct (px =? 0); [exact I |]. rewrite !bind_ret_l.
  destruct (negb _); [simpl; in_analysis_codes |].
  destruct (py =? 0); [exact I |]. rewrite !bind_ret_l.
  destruct (negb _); [simpl; in_analysis_codes |].
  destruct (pz =? 0); [exact I |]. rewrite !bind_ret_l.
  destruct (negb _); [simpl; in_analysis_codes |].
  destruct (_ <? _); [exact I |].
  pose proof (within_read_next (file2 st) (line_count_f2 st)) as Hr.
  destruct (read_next_line_of_input _ _) as [out' [[[line n'] f2] | e |]] eqn:Er;
    try exact Hr.
  cbn [bind].
  match goal with |- exits_within _ (let (_, _) := ?m in _) =>
    assert (exits_within analysis_codes m) as Hm; [| unfold exits_within in *;
      destruct m; exact Hm] end.
  destruct (String.eqb_spec line EmptyString) as [| Hl]; [exact I |].
  apply IH. simpl. apply read_next_shrinks in Er; auto. lia.
Qed.

Lemma within_check_chunk es : forall f1 n,
  exits_within analysis_codes (check_chunk es f1 n).
Proof.
  induction es as [| e es IH]; intros f1 n; cbn [check_chunk]; [exact I |].
  apply within_bind; [apply within_read_next |]. intros [[line n'] f1'].
  unfold die, sys_exit, raise, print.
  destruct (String.eqb line EmptyString); [simpl; in_analysis_codes |].
  apply within_bind; [apply within_parse_line |]. intros b.
  destruct (_ || _); [simpl; in_analysis_codes |].
  destruct (negb _); [simpl; in_analysis_codes | apply IH].
Qed.

Lemma within_chunk_loop px py pz zs : forall st,
  exits_within analysis_codes (chunk_loop px py pz zs st).
Proof.
  induction zs as [| z zs IH]; intros st; cbn [chunk_loop]; [exact I |].
  apply within_bind; [| intros; apply IH].
  unfold chunk_body.
  apply within_bind; [apply within_read_chunk; lia |]. intros [st1 chunk].
  apply within_bind; [apply within_check_chunk |]. intros [f1 n]. exact I.
Qed.

Lemma within_header f1 n :
  exits_within analysis_codes (get_header_info_of_file1 f1 n).
Proof.
  unfold get_header_info_of_file1.
  apply within_bind.
  - destruct f1 as [| [line | e] f1]; simpl.
    + in_analysis_codes.
    + destruct (String.eqb line EmptyString); simpl; [in_analysis_codes | exact I].
    + unfold read_failed. destruct e; simpl; in_analysis_codes.
  - intros [line f1'].
    apply within_bind; [| intros; exact I].
    unfold parse_line1_of_file1, die, sys_exit, raise, print. within_tac.
Qed.

Lemma within_analyse f1 f2 : exits_within analysis_codes (analyse f1 f2).
Proof.
  unfold analyse.
  apply within_bind; [apply within_header |]. intros [ints f1'].
  repeat (apply within_bind; [unfold item; destruct (nth_error _ _); exact I |];
          intros ?).
  apply within_bind; [apply within_read_next |]. intros [[line n] f2'].
  unfold die, sys_exit, raise, print.
  destruct (String.eqb line EmptyString); [simpl; in_analysis_codes |].
  destruct (Py.range3 _ _ _); [| exact I].
  apply within_bind; [apply within_chunk_loop |]. intros st.
  unfold truediv. destruct (_ =? 0); exact I.
Qed.

Lemma within_after_setup e :
  exits_within analysis_codes
    (compression <- analyse (input_csv e) (out_csv e) ;;
     if speed e then
       speed_ <- truediv_time (baseline_time e) (item_under_test_time e) ;;
       narrated_rate (item_under_test_time e) ;;;
       narrated_rate (baseline_time e) ;;;
       ret [compression; speed_]
     else ret [compression]).
Proof.
  apply within_bind; [apply within_analyse |]. intros c.
  destruct (speed e); [| exact I].
  unfold truediv_time, narrated_rate.
  destruct (Qeq_bool (item_under_test_time e) 0); [exact I |].
  destruct (Qeq_bool (baseline_time e) 0); exact I.
Qed.

Lemma analysis_status {A} (m : M A) code :
  exits_within analysis_codes m ->
  exit_status (snd m) = Some code ->
  code = 0 \/ code = 1 \/ code = 100 \/ code = 200 \/ code = 300.
Proof.
  unfold exits_within.
  destruct (snd m) as [a | [c | | | | |] |]; simpl; intros H E;
    inversion E; subst; try tauto.
  destruct H as [<- | [<- | [<- | [<- | []]]]]; tauto.
Qed.

(** X3.  The statuses 10 to 14 tell the five failures before the analysis
    apart, and nothing else produces them: 10 exactly when the item under
    test is not a file; 11 when it is one but ends in neither [.py] nor
    [.exe]; 12 when the input file is then not found; 13 when, with
    [--speed], one of the two baseline runs fails; 14 when the item under
    test then exits with a status other than 0. *)
Theorem setup_statuses :
  forall e : env,
    let status := exit_status (snd (main e)) in
    (status = Some 10 <-> item_found e = false) /\
    (status = Some 11 <-> item_found e = true /\ extension_ok e = false) /\
    (status = Some 12 <->
       item_found e = true /\ extension_ok e = true /\ input_found e = false) /\
    (status = Some 13 <->
       item_found e = true /\ extension_ok e = true /\ input_found e = true /\
       baseline_ok e = false) /\
    (status = Some 14 <->
       item_found e = true /\ extension_ok e = true /\ input_found e = true /\
       baseline_ok e = true /\ item_returncode e <> 0).
Proof.
  intros e status. subst status.
  destruct (item_found e) eqn:E1.
  2: { unfold main. unfold item_found in E1. rewrite E1. simpl.
       repeat split; intros; try discriminate; intuition discriminate. }
  destruct (extension_ok e) eqn:E2.
  2: { unfold main. unfold item_found in E1. unfold extension_ok in E2.
       rewrite E1, E2. simpl.
       repeat split; intros; try discriminate; intuition discriminate. }
  destruct (input_found e) eqn:E3.
  2: { unfold main. unfold item_found in E1. unfold extension_ok in E2.
       unfold input_found in E3. rewrite E1, E2, E3. simpl.
       repeat split; intros; try discriminate; intuition discriminate. }
  destruct (baseline_ok e) eqn:E4.
  2: { unfold main. unfold item_found in E1. unfold extension_ok in E2.
       unfold input_found in E3. unfold baseline_ok in E4. rewrite E1, E2, E3. simpl.
       destruct (speed e); simpl in E4; [| discriminate].
       destruct (baseline_warm_up_returncode e =? 0); simpl in *;
         [rewrite E4; simpl |];
         repeat split; intros; try discriminate; intuition discriminate. }
  destruct (Z.eq_dec (item_returncode e) 0) as [E5 | E5].
  - rewrite (main_after_setup e E1 E2 E3 E4 E5).
    pose proof (analysis_status _ 10 (within_after_setup e)).
    pose proof (analysis_status _ 11 (within_after_setup e)).
    pose proof (analysis_status _ 12 (within_after_setup e)).
    pose proof (analysis_status _ 13 (within_after_setup e)).
    pose proof (analysis_status _ 14 (within_after_setup e)).
    repeat split; intros; try discriminate; try lia; intuition (try discriminate; lia).
  - assert (exit_status (snd (main e)) = Some 14) as ->.
    { unfold main. unfold item_found in E1. unfold extension_ok in E2.
      unfold input_found in E3. unfold baseline_ok in E4. rewrite E1, E2, E3. simpl.
      rewrite (proj2 (Z.eqb_neq _ _) E5).
      destruct (speed e); simpl in E4; [| reflexivity].
      apply andb_prop in E4 as [-> ->]. reflexivity. }
    repeat split; intros; try discriminate; intuition discriminate.
Qed.

(** ** The reader of data lines *)

Lemma read_next_comments comments : forall tail n,
  Forall (fun l => skipped l = true) comments ->
  read_next_line_of_input (map Line comments ++ tail) n =
    read_next_line_of_input tail (n + Z.of_nat (List.length comments)).
Proof.
  induction comments as [| c comments IH]; intros tail n H.
  - simpl. rewrite Z.add_0_r. reflexivity.
  - inversion H as [| ? ? Hc Hcs]; subst.
    cbn [map app read_next_line_of_input].
    destruct c as [| a c]; [discriminate |]. cbn [skipped] in Hc. rewrite Hc.
    rewrite IH by exact Hcs. f_equal. cbn [List.length]. lia.
Qed.

(** X4.  [read_next_line_of_input] reads on past comment and blank lines:
    it returns the first line that starts with none of [#], line feed and
    carriage return, adds to the line count the number of lines it read,
    and leaves the stream just after that line; when only such lines are
    left it returns the empty string, having counted one read more. *)
Theorem reader_skips_comments :
  forall (comments : list string) (line : string) (rest : file) (n : Z),
    Forall (fun l => skipped l = true) comments ->
    skipped line = false ->
    read_next_line_of_input (map Line comments ++ Line line :: rest) n
      = ret (line, n + Z.of_nat (List.length comments) + 1, rest) /\
    read_next_line_of_input (map Line comments) n
      = ret (EmptyString, n + Z.of_nat (List.length comments) + 1, []).
Proof.
  intros comments line rest n Hc Hl. split.
  - rewrite (read_next_comments comments _ n Hc). cbn [read_next_line_of_input].
    destruct line as [| a line]; [reflexivity |].
    cbn [skipped] in Hl. rewrite Hl. reflexivity.
  - rewrite <- (app_nil_r (map Line comments)).
    rewrite (read_next_comments comments [] n Hc). reflexivity.
Qed.

Lemma reader_skips_comments_witness :
  read_next_line_of_input
    (map Line ["# a comment" ++ Py.nl; Py.nl]%string
       ++ Line ("0,0,0,1,1,1,a" ++ Py.nl)%string :: text ["1,0,0,1,1,1,a"]) 1
    = ret (("0,0,0,1,1,1,a" ++ Py.nl)%string, 1 + 2 + 1, text ["1,0,0,1,1,1,a"]).
Proof.
  refine (proj1 (reader_skips_comments ["# a comment" ++ Py.nl; Py.nl]%string
            ("0,0,0,1,1,1,a" ++ Py.nl)%string (text ["1,0,0,1,1,1,a"]) 1 _ _)).
  - repeat constructor.
  - reflexivity.
Defined.

(** X5.  A read that fails while data lines are looked for ends the run
    with status 200 when it raised [OSError] and with status 300 for
    every other exception, and the diagnostic carries the number of lines
    read before it. *)
Theorem reader_failure_status :
  forall (comments : list string) (e : exn) (rest : file) (n : Z),
    Forall (fun l => skipped l = true) comments ->
    read_next_line_of_input (map Line comments ++ Fails e :: rest) n =
      match e with
      | OSError =>
          ([FailedToReadLine (n + Z.of_nat (List.length comments)) Strerror],
           Raise (SystemExit 200))
      | _ =>
          ([FailedToReadLine (n + Z.of_nat (List.length comments)) (ExcClass e)],
           Raise (SystemExit 300))
      end.
Proof.
  intros comments e rest n Hc.
  rewrite (read_next_comments comments _ n Hc). cbn [read_next_line_of_input].
  unfold read_failed. destruct e; reflexivity.
Qed.

Lemma reader_failure_status_witness :
  read_next_line_of_input (map Line [Py.nl] ++ Fails OSError :: []) 4 =
    ([FailedToReadLine (4 + 1) Strerror], Raise (SystemExit 200)).
Proof.
  refine (reader_failure_status [Py.nl] OSError [] 4 _).
  repeat constructor.
Defined.

(** ** The parser of data lines *)

Ltac ltb_cases :=
  repeat match goal with
  | |- context [Z.ltb ?a ?b] => destruct (Z.ltb_spec a b); simpl
  end.

(** X6.  [parse_line] returns a block exactly when the line has a comma,
    every field before the last comma is an integer, there are at least
    six of them and the fourth to sixth lie between 0 and the parent
    sizes; the block is made of the first six integers (further ones are
    ignored) and of the trimmed text after the last comma, and does not
    depend on the line count. *)
Theorem parse_line_accepts :
  forall (line : string) (n px py pz : Z) (b : block),
    parse_line line n px py pz = ret b <->
    Py.rfind "," line <> -1 /\
    exists ints,
      ints_of (Py.split "," (Py.slice_to (Py.rfind "," line) line)) = inl ints /\
      firstn 6 ints = [bx b; by_ b; bz b; bsx b; bsy b; bsz b] /\
      0 <= bsx b <= px /\ 0 <= bsy b <= py /\ 0 <= bsz b <= pz /\
      bdomain b =
        Py.strip strip_chars (Py.slice_from (Py.rfind "," line + 1) line).
Proof.
  intros line n px py pz b.
  unfold parse_line, or_else, item, file_format_error_and_exit, die, sys_exit,
    raise, print.
  destruct (Z.eqb_spec (Py.rfind "," line) (-1)) as [Ec | Ec].
  { split; [discriminate | intros [H _]; contradiction]. }
  destruct (ints_of _) as [ints | bad].
  2: { split; [discriminate | intros (_ & ints & H & _); discriminate]. }
  split.
  - intros H. split; [exact Ec |]. exists ints. split; [reflexivity |].
    destruct ints as [| i0 [| i1 [| i2 [| i3 [| i4 [| i5 rest]]]]]];
      simpl in H; try discriminate; revert H; ltb_cases; intros Hres;
      try discriminate.
    inversion Hres; subst. simpl. repeat split; try reflexivity; lia.
  - intros (_ & ints' & E & Hf & Hx & Hy & Hz & Hd). inversion E; subst ints'.
    destruct ints as [| i0 [| i1 [| i2 [| i3 [| i4 [| i5 rest]]]]]];
      simpl in Hf; try discriminate.
    inversion Hf; subst. simpl. ltb_cases; try lia.
    destruct b; simpl in *. subst. reflexivity.
Qed.

Lemma parse_line_accepts_witness :
  parse_line ("0,0,1,2,2,1,9,9,'ore'" ++ Py.nl)%string 7 2 2 1
    = ret (Block 0 0 1 2 2 1 "ore").
Proof.
  refine (proj2 (parse_line_accepts ("0,0,1,2,2,1,9,9,'ore'" ++ Py.nl)%string
                   7 2 2 1 (Block 0 0 1 2 2 1 "ore")) _).
  split; [vm_compute; discriminate |].
  exists [0; 0; 1; 2; 2; 1; 9; 9].
  repeat split; try (vm_compute; reflexivity); try (vm_compute; discriminate).
Defined.

(** X8.  A line that has a comma but fewer than four integer fields
    before its last comma is not reported as a format error: the look-up
    of its fourth field raises [IndexError], which nothing catches. *)
Theorem short_line_raises_index_error :
  forall (line : string) (n px py pz : Z) (ints : list Z),
    Py.rfind "," line <> -1 ->
    ints_of (Py.split "," (Py.slice_to (Py.rfind "," line) line)) = inl ints ->
    (List.length ints <= 3)%nat ->
    parse_line line n px py pz = ([], Raise IndexError).
Proof.
  intros line n px py pz ints Hc Hi Hl.
  unfold parse_line, or_else, item.
  rewrite (proj2 (Z.eqb_neq _ _) Hc), Hi.
  destruct ints as [| i0 [| i1 [| i2 [| i3 rest]]]]; simpl in Hl; try lia; reflexivity.
Qed.

Lemma short_line_raises_index_error_witness :
  parse_line ("1,2,a" ++ Py.nl)%string 3 2 2 1 = ([], Raise IndexError).
Proof.
  refine (short_line_raises_index_error ("1,2,a" ++ Py.nl)%string 3 2 2 1 [1; 2] _ _ _).
  - vm_compute. discriminate.
  - vm_compute. reflexivity.
  - simpl. lia.
Defined.

Lemma lstrip_head chars s :
  match Py.lstrip chars s with
  | EmptyString => True
  | String a _ => Py.mem a chars = false
  end.
Proof.
  induction s as [| a s IH]; simpl; [exact I |].
  destruct (Py.mem a chars) eqn:E; [exact IH | exact E].
Qed.

Lemma lstrip_fix chars s :
  match s with EmptyString => True | String a _ => Py.mem a chars = false end ->
  Py.lstrip chars s = s.
Proof. destruct s as [| a s]; simpl; [reflexivity |]. intros ->. reflexivity. Qed.

Lemma rstrip_head chars s :
  match Py.rstrip chars s with
  | EmptyString => True
  | String a _ => match s with EmptyString => False | String a' _ => a = a' end
  end.
Proof.
  destruct s as [| a s]; simpl; [exact I |].
  destruct (Py.rstrip chars s); [destruct (Py.mem a chars) |]; simpl; auto.
Qed.

Lemma rstrip_idem chars s :
  Py.rstrip chars (Py.rstrip chars s) = Py.rstrip chars s.
Proof.
  induction s as [| a s IH]; simpl; [reflexivity |].
  destruct (Py.rstrip chars s) as [| a' r] eqn:E.
  - destruct (Py.mem a chars) eqn:Ea; simpl; [reflexivity |]. rewrite Ea. reflexivity.
  - remember (String a' r) as u eqn:Eu. simpl. rewrite IH. subst u. reflexivity.
Qed.

Lemma strip_idem chars s : Py.strip chars (Py.strip chars s) = Py.strip chars s.
Proof.
  unfold Py.strip.
  pose proof (lstrip_head chars s) as Hl.
  pose proof (rstrip_head chars (Py.lstrip chars s)) as Hr.
  destruct (Py.rstrip chars (Py.lstrip chars s)) as [| a r] eqn:E; [reflexivity |].
  rewrite lstrip_fix.
  - rewrite <- E. apply rstrip_idem.
  - destruct (Py.lstrip chars s) as [| a' t]; [contradiction |]. subst a'. exact Hl.
Qed.

Lemma mem_lstrip c chars s :
  Py.mem c s = false -> Py.mem c (Py.lstrip chars s) = false.
Proof.
  induction s as [| a s IH]; simpl; [reflexivity |].
  destruct (Ascii.eqb c a) eqn:E; [discriminate |]. intros H.
  destruct (Py.mem a chars); [auto |]. simpl. rewrite E. exact H.
Qed.

Lemma mem_rstrip c chars s :
  Py.mem c s = false -> Py.mem c (Py.rstrip chars s) = false.
Proof.
  induction s as [| a s IH]; simpl; [reflexivity |].
  destruct (Ascii.eqb c a) eqn:E; [discriminate |]. intros H.
  specialize (IH H).
  destruct (Py.rstrip chars s) as [| a' r].
  - destruct (Py.mem a chars); simpl; [reflexivity |]. rewrite E. reflexivity.
  - cbn [Py.mem]. rewrite E. exact IH.
Qed.

(** A string with a [c] in it is cut at its last [c]. *)
Lemma rfind_split c s :
  Py.rfind c s <> -1 ->
  exists pre t,
    s = (pre ++ String c t)%string /\ Py.mem c t = false /\ Py.rfind c s = Py.len pre.
Proof.
  induction s as [| a s IH]; simpl; [congruence |].
  destruct (Z.eqb_spec (Py.rfind c s) (-1)) as [E | E].
  - destruct (Ascii.eqb_spec a c) as [-> | Hac]; [| congruence]. intros _.
    exists EmptyString, s. repeat split.
    clear IH. induction s as [| b s IHs]; simpl in *; [reflexivity |].
    destruct (Z.eqb_spec (Py.rfind c s) (-1)) as [E' | E'].
    + rewrite Ascii.eqb_sym. destruct (Ascii.eqb b c); [discriminate | auto].
    + pose proof (rfind_ge c s). lia.
  - intros _. destruct (IH E) as (pre & t & -> & Ht & Hr).
    exists (String a pre), t. repeat split; auto.
    rewrite Hr. unfold Py.len. cbn [String.length]. lia.
Qed.

(** X7.  The domain of every block [parse_line] returns is trimmed, that
    is, left unchanged by the removal of apostrophes, spaces, line feeds
    and carriage returns from its ends, and contains no comma. *)
Theorem parsed_domain_is_trimmed :
  forall (line : string) (n px py pz : Z) (out : list message) (b : block),
    parse_line line n px py pz = (out, Ok b) ->
    Py.strip strip_chars (bdomain b) = bdomain b /\
    Py.mem "," (bdomain b) = false.
Proof.
  intros line n px py pz out b H.
  rewrite (parse_line_domain _ _ _ _ _ _ _ H).
  split; [apply strip_idem |].
  assert (Py.rfind "," line <> -1) as Hc.
  { intros E. unfold parse_line in H. rewrite E in H. discriminate. }
  destruct (rfind_split _ _ Hc) as (pre & t & -> & Ht & Hr).
  rewrite Hr, slice_after. unfold Py.strip.
  apply mem_rstrip, mem_lstrip. exact Ht.
Qed.

Lemma parsed_domain_is_trimmed_witness :
  Py.strip strip_chars "ore" = "ore" /\ Py.mem "," "ore" = false.
Proof.
  refine (parsed_domain_is_trimmed ("0,0,1,2,2,1, 'ore'" ++ Py.nl)%string 7 2 2 1 []
            (Block 0 0 1 2 2 1 "ore") _).
  vm_compute. reflexivity.
Defined.

(** ** The explosion of a block *)

Lemma in_explode b n e :
  In e (explode b n) <->
  bx b <= ex e < bx b + bsx b /\ by_ b <= ey e < by_ b + bsy b /\
  bz b <= ez e < bz b + bsz b /\ edomain e = bdomain b /\ eline e = n.
Proof.
  unfold explode. split.
  - intros Hin.
    apply in_flat_map in Hin as (sz & Hsz & Hin).
    apply in_flat_map in Hin as (sy & Hsy & Hin).
    apply in_map_iff in Hin as (sx & <- & Hsx).
    apply in_range in Hsx, Hsy, Hsz. simpl. repeat split; lia || reflexivity.
  - intros (Hx & Hy & Hz & Hd & Hn).
    apply in_flat_map. exists (ez e - bz b). split; [apply in_range; lia |].
    apply in_flat_map. exists (ey e - by_ b). split; [apply in_range; lia |].
    apply in_map_iff. exists (ex e - bx b). split; [| apply in_range; lia].
    destruct e; simpl in *. subst. f_equal; lia.
Qed.

Lemma length_explode b n :
  Z.of_nat (List.length (explode b n)) =
    Z.max 0 (bsx b) * Z.max 0 (bsy b) * Z.max 0 (bsz b).
Proof.
  unfold explode.
  rewrite (length_flat_map_const _ (Z.to_nat (bsy b) * Z.to_nat (bsx b))%nat).
  - unfold Py.range. rewrite length_iota. lia.
  - intros sz. rewrite (length_flat_map_const _ (Z.to_nat (bsx b))).
    + unfold Py.range. rewrite length_iota. reflexivity.
    + intros sy. rewrite length_map. unfold Py.range. apply length_iota.
Qed.

Lemma explode_sorted b n : StronglySorted zyx_lt (explode b n).
Proof.
  unfold explode.
  apply StronglySorted_flat_map with (R' := Z.lt); [apply iota_sorted | |].
  - intros sz _.
    apply StronglySorted_flat_map with (R' := Z.lt); [apply iota_sorted | |].
    + intros sy _. apply StronglySorted_map.
      eapply StronglySorted_weaken; [| apply iota_sorted].
      intros x x' Hx. unfold zyx_lt, sort_key. simpl. key_cases.
    + intros y y' c c' Hy Hc Hc'.
      apply in_map_iff in Hc as (x & <- & _). apply in_map_iff in Hc' as (x' & <- & _).
      unfold zyx_lt, sort_key. simpl. key_cases.
  - intros z z' c c' Hz Hc Hc'.
    apply in_flat_map in Hc as (y & _ & Hc). apply in_map_iff in Hc as (x & <- & _).
    apply in_flat_map in Hc' as (y' & _ & Hc'). apply in_map_iff in Hc' as (x' & <- & _).
    unfold zyx_lt, sort_key. simpl. key_cases.
Qed.

(** The sort leaves a list that is in order as it is. *)
Lemma sort_sorted_id l : StronglySorted key_le l -> sort l = l.
Proof.
  induction 1 as [| e l Hs IH He]; cbn [sort]; [reflexivity |].
  rewrite IH. destruct l as [| e' l']; cbn [insert]; [reflexivity |].
  inversion He as [| ? ? Hle _]; subst. unfold key_le in Hle. rewrite Hle. reflexivity.
Qed.

(** X9.  The entries a block explodes into are exactly the unit cells of
    its box, each once and with the domain of the block and the number of
    its line; there are [sx * sy * sz] of them (none when a size is zero
    or less); and they come in strictly ascending [(z, y, x)] order, so
    that the sort leaves the explosion of a single block unchanged. *)
Theorem explode_is_box :
  forall (b : block) (n : Z),
    (forall e,
       In e (explode b n) <->
       bx b <= ex e < bx b + bsx b /\ by_ b <= ey e < by_ b + bsy b /\
       bz b <= ez e < bz b + bsz b /\ edomain e = bdomain b /\ eline e = n) /\
    Z.of_nat (List.length (explode b n)) =
      Z.max 0 (bsx b) * Z.max 0 (bsy b) * Z.max 0 (bsz b) /\
    StronglySorted zyx_lt (explode b n) /\
    sort (explode b n) = explode b n.
Proof.
  intros b n. split; [intros e; apply in_explode |].
  split; [apply length_explode |]. split; [apply explode_sorted |].
  apply sort_sorted_id.
  eapply StronglySorted_weaken; [| apply explode_sorted].
  intros a c. unfold zyx_lt, key_le. apply key_ltb_leb.
Qed.

(** ** What the loop that reads a chunk keeps *)

Lemma die_not_ok {A} code msg out (a : A) : die code msg <> (out, Ok a).
Proof. discriminate. Qed.

Lemma explode_in_slab pz k b n :
  0 < pz ->
  k * pz <= bz b <= k * pz + pz - 1 ->
  crosses pz (bz b) (bsz b) = false ->
  Forall (fun e => k * pz <= ez e < k * pz + pz) (explode b n).
Proof.
  intros Hpz Hz Hc. apply Forall_forall. intros e He.
  apply in_explode in He as (_ & _ & Hez & _).
  unfold crosses in Hc. apply negb_false_iff, Z.eqb_eq in Hc.
  assert (bz b + bsz b - 1 <= k * pz + pz - 1); [| lia].
  apply (slab_le pz Hpz). rewrite <- Hc. apply (slab_le pz Hpz). lia.
Qed.

Lemma length_explode_le px py pz b n line m :
  parse_line line m px py pz = ret b ->
  Z.of_nat (List.length (explode b n)) <= px * py * pz.
Proof.
  intros Hp. apply parse_line_accepts in Hp as (_ & ints & _ & _ & Hx & Hy & Hz & _).
  rewrite length_explode.
  rewrite !Z.max_r by lia.
  assert (bsx b * bsy b <= px * py) by (apply Z.mul_le_mono_nonneg; lia).
  assert (0 <= bsx b * bsy b) by (apply Z.mul_nonneg_nonneg; lia).
  apply Z.mul_le_mono_nonneg; lia.
Qed.

(** X10.  Whatever the candidate stream holds, a chunk that the loop of
    lines 333-384 returns for a slab origin [k * parent_size_z] is the
    chunk it started from followed by entries whose z lies in that slab;
    the loop adds at most [parent_size_x * parent_size_y * parent_size_z]
    entries for every block it counts, never lowers the count of
    candidate blocks and leaves the reference stream untouched. *)
Theorem chunk_stays_in_slab :
  forall px py pz k,
    0 < px -> 0 < py -> 0 < pz ->
    forall fuel st chunk out st' chunk',
      read_chunk px py pz fuel (k * pz) st chunk = (out, Ok (st', chunk')) ->
      exists added,
        chunk' = chunk ++ added /\
        Forall (fun e => k * pz <= ez e < k * pz + pz) added /\
        Z.of_nat (List.length added)
          <= (block_count_f2 st' - block_count_f2 st) * (px * py * pz) /\
        block_count_f2 st <= block_count_f2 st' /\
        file1 st' = file1 st /\
        line_count_f1 st' = line_count_f1 st.
Proof.
  intros px py pz k Hpx Hpy Hpz.
  induction fuel as [| fuel IH]; intros st chunk out st' chunk' H; [discriminate |].
  destruct (parse_line (line_f2 st) (line_count_f2 st) px py pz)
    as [o [b | e |]] eqn:Hp;
    try (cbn [read_chunk] in H; rewrite Hp in H; discriminate).
  pose proof (quiet_parse_line _ _ _ _ _ _ _ Hp) as ->.
  rewrite (read_chunk_iter px py pz Hpx Hpy Hpz _ _ _ _ b Hp) in H.
  destruct (Z.ltb_spec (bz b) (k * pz)) as [| Hge];
    [exfalso; eapply die_not_ok; exact H |].
  destruct (crosses px (bx b) (bsx b)); [exfalso; eapply die_not_ok; exact H |].
  destruct (crosses py (by_ b) (bsy b)); [exfalso; eapply die_not_ok; exact H |].
  destruct (crosses pz (bz b) (bsz b)) eqn:Hcz;
    [exfalso; eapply die_not_ok; exact H |].
  destruct (Z.ltb_spec (k * pz + pz - 1) (bz b)) as [| Hle].
  - inversion H; subst. exists []. rewrite app_nil_r. simpl.
    repeat split; auto; try lia.
  - apply bind_ok_inv in H as (o1 & [[line n'] f2] & o2 & Er & H & _).
    pose proof (explode_in_slab pz k b (line_count_f2 st) Hpz
                  (conj Hge Hle) Hcz) as Hin.
    pose proof (length_explode_le px py pz b (line_count_f2 st) _ _ Hp) as Hlen.
    cbv zeta in H.
    destruct (String.eqb line EmptyString).
    + inversion H; subst. exists (explode b (line_count_f2 st)). simpl.
      repeat split; auto; lia.
    + apply IH in H as (added & -> & Hadded & Hcount & Hmono & Hf1 & Hlc1).
      simpl in *. exists (explode b (line_count_f2 st) ++ added).
      rewrite app_assoc. split; [reflexivity |].
      split; [apply Forall_app; auto |].
      rewrite length_app, Nat2Z.inj_add.
      replace ((block_count_f2 st' - block_count_f2 st) * (px * py * pz))
        with (px * py * pz
              + (block_count_f2 st' - (block_count_f2 st + 1)) * (px * py * pz))
        by ring.
      repeat split; auto; lia.
Qed.

Lemma chunk_stays_in_slab_witness :
  exists added,
    [Entry 0 0 1 "a" 1] = [] ++ added /\
    Forall (fun e => 1 * 1 <= ez e < 1 * 1 + 1) added /\
    Z.of_nat (List.length added) <= (1 - 0) * (1 * 1 * 1) /\
    0 <= 1 /\
    ([] : file) = [] /\
    1 = 1.
Proof.
  refine (chunk_stays_in_slab 1 1 1 1 _ _ _ 1%nat second_slab_block [] []
            (State [] 1 [] EmptyString 2 0 1) [Entry 0 0 1 "a" 1] _);
    reflexivity.
Defined.

(** ** The order in which the blocks of a slab arrive *)

Lemma sorted_cells es : StronglySorted cell_le (map cell_of_entry (sort es)).
Proof.
  apply StronglySorted_map.
  eapply StronglySorted_weaken; [| apply sort_sorted]. intros a b H. exact H.
Qed.

Lemma sorted_nodup_strict l :
  StronglySorted cell_le l -> NoDup (map cell_key l) -> StronglySorted cell_lt l.
Proof.
  induction 1 as [| a l Hs IH Ha]; intros Hn; [constructor |].
  simpl in Hn. inversion Hn as [| ? ? Hnotin Hn']; subst.
  constructor; [auto |].
  rewrite Forall_forall in *. intros c Hc. specialize (Ha c Hc).
  unfold cell_lt, cell_le, key_ltb in *.
  destruct (key_leb (cell_key c) (cell_key a)) eqn:E; [| reflexivity].
  exfalso. apply Hnotin. rewrite (key_leb_antisym _ _ Ha E).
  apply in_map. exact Hc.
Qed.

Lemma same_block_cells es bs :
  Forall2 same_block es bs <-> map cell_of_entry es = map cell_of_block bs.
Proof.
  split.
  - induction 1 as [| e b es bs [(Hx & Hy & Hz) Hd] _ IH]; simpl; [reflexivity |].
    rewrite IH. f_equal. unfold cell_of_entry, cell_of_block.
    rewrite Hx, Hy, Hz, Hd. reflexivity.
  - revert bs. induction es as [| e es IH]; intros [| b bs] H; try discriminate;
      constructor.
    + inversion H. repeat split; assumption.
    + apply IH. inversion H. reflexivity.
Qed.

(** X11.  As long as no two entries of a chunk share their coordinates,
    the order in which the cells were appended does not matter: two chunks
    with the same cells are sorted into the same sequence of cells, and
    the comparison accepts the one exactly when it accepts the other,
    leaving the reference at the same place. *)
Theorem arrival_order_is_irrelevant :
  forall chunk chunk' : list entry,
    Permutation (map cell_of_entry chunk) (map cell_of_entry chunk') ->
    NoDup (map sort_key chunk) ->
    map cell_of_entry (sort chunk) = map cell_of_entry (sort chunk') /\
    (forall f1 n r,
       check_chunk (sort chunk) f1 n = ret r <->
       check_chunk (sort chunk') f1 n = ret r).
Proof.
  intros chunk chunk' HP Hn.
  assert (map cell_of_entry (sort chunk') = map cell_of_entry (sort chunk)) as E.
  { apply sorted_perm_eq.
    - apply sorted_cells.
    - apply sorted_nodup_strict; [apply sorted_cells |].
      rewrite map_map.
      eapply Permutation_NoDup; [| exact Hn].
      apply Permutation_map, sort_perm.
    - rewrite <- (Permutation_map cell_of_entry (sort_perm chunk')).
      rewrite <- (Permutation_map cell_of_entry (sort_perm chunk)).
      apply Permutation_sym. exact HP. }
  split; [symmetry; exact E |].
  intros f1 n [f1' n'].
  rewrite !check_chunk_accepts.
  assert (List.length (sort chunk) = List.length (sort chunk')) as El
    by (rewrite <- (length_map cell_of_entry), <- E, length_map; reflexivity).
  rewrite El.
  split; intros (bs & Hnext & Hsame); exists bs; (split; [exact Hnext |]);
    apply same_block_cells; apply same_block_cells in Hsame; congruence.
Qed.

Lemma arrival_order_is_irrelevant_witness :
  map cell_of_entry (sort [Entry 1 0 0 "a" 1; Entry 0 0 0 "b" 2]) =
  map cell_of_entry (sort [Entry 0 0 0 "b" 1; Entry 1 0 0 "a" 2]).
Proof.
  refine (proj1 (arrival_order_is_irrelevant
                   [Entry 1 0 0 "a" 1; Entry 0 0 0 "b" 2]
                   [Entry 0 0 0 "b" 1; Entry 1 0 0 "a" 2] _ _)).
  - apply perm_swap.
  - repeat constructor; simpl; intuition discriminate.
Defined.

(** ** The parser written for the reference file, continued *)

Lemma dict_get_set d k v k' default :
  dict_get (dict_set d k v) k' default =
    if String.eqb k' k then v else dict_get d k' default.
Proof.
  induction d as [| [k0 v0] d IH]; simpl.
  - destruct (String.eqb k' k); reflexivity.
  - destruct (String.eqb_spec k k0) as [-> | Hk]; simpl.
    + destruct (String.eqb k' k0); reflexivity.
    + destruct (String.eqb_spec k' k0) as [-> | Hk'].
      * rewrite (proj2 (String.eqb_neq k0 k)) by congruence. reflexivity.
      * exact IH.
Qed.

Ltac eqb_cases :=
  repeat match goal with
  | |- context [Z.eqb ?a ?b] => destruct (Z.eqb_spec a b); simpl
  end.

Lemma parse_and_check_inv x y z line n domains out b domains' :
  parse_and_check_line_of_file1 x y z line n domains = (out, Ok (b, domains')) ->
  out = [] /\
  Py.rfind "," line <> -1 /\
  (exists ints,
     ints_of (Py.split "," (Py.slice_to (Py.rfind "," line) line)) = inl ints /\
     firstn 6 ints = [x; y; z; 1; 1; 1]) /\
  b = Block x y z 1 1 1
        (Py.strip strip_chars (Py.slice_from (Py.rfind "," line + 1) line)) /\
  domains' = dict_set domains (bdomain b) (dict_get domains (bdomain b) 0 + 1).
Proof.
  unfold parse_and_check_line_of_file1, or_else, item, file_format_error_and_exit,
    die, sys_exit, raise, print.
  destruct (Z.eqb_spec (Py.rfind "," line) (-1)) as [Ec | Ec]; [discriminate |].
  destruct (ints_of _) as [ints | bad]; [| discriminate].
  destruct ints as [| i0 [| i1 [| i2 [| i3 [| i4 [| i5 rest]]]]]]; simpl;
    try discriminate; eqb_cases; intros Hres; try discriminate.
  inversion Hres; subst. simpl. repeat split; auto.
  eexists. split; reflexivity.
Qed.

(** X12.  Whatever [parse_and_check_line_of_file1] returns is the unit
    block at the expected position with the trimmed label of the line, and
    the tally of domains it returns counts that label once more and every
    other label as before. *)
Theorem reference_parser_result :
  forall (x y z : Z) (line : string) (n : Z) (domains domains' : list (string * Z))
         (out : list message) (b : block),
    parse_and_check_line_of_file1 x y z line n domains = (out, Ok (b, domains')) ->
    b = Block x y z 1 1 1
          (Py.strip strip_chars (Py.slice_from (Py.rfind "," line + 1) line)) /\
    forall label,
      dict_get domains' label 0 =
        dict_get domains label 0 + (if String.eqb label (bdomain b) then 1 else 0).
Proof.
  intros x y z line n domains domains' out b H.
  apply parse_and_check_inv in H as (_ & _ & _ & Hb & ->).
  split; [exact Hb |]. intros label. rewrite dict_get_set.
  destruct (String.eqb_spec label (bdomain b)) as [-> |]; lia.
Qed.

Lemma reference_parser_result_witness :
  Block 1 0 0 1 1 1 "ore" =
    Block 1 0 0 1 1 1
      (Py.strip strip_chars
         (Py.slice_from (Py.rfind "," ("1,0,0,1,1,1,'ore'" ++ Py.nl)%string + 1)
            ("1,0,0,1,1,1,'ore'" ++ Py.nl)%string)) /\
  forall label,
    dict_get [("ore", 4)] label 0 =
      dict_get [("ore", 3)] label 0
      + (if String.eqb label (bdomain (Block 1 0 0 1 1 1 "ore")) then 1 else 0).
Proof.
  refine (reference_parser_result 1 0 0 ("1,0,0,1,1,1,'ore'" ++ Py.nl)%string 2
            [("ore", 3)] [("ore", 4)] [] (Block 1 0 0 1 1 1 "ore") _).
  vm_compute. reflexivity.
Defined.

(** X13.  Every reference line that [parse_and_check_line_of_file1]
    accepts the script, which reads the reference with
    [parse_line(line, n, 1, 1, 1)], accepts as well, as the same block. *)
Theorem reference_parsers_agree :
  forall (x y z : Z) (line : string) (n : Z) (domains domains' : list (string * Z))
         (out : list message) (b : block),
    parse_and_check_line_of_file1 x y z line n domains = (out, Ok (b, domains')) ->
    parse_line line n 1 1 1 = ret b.
Proof.
  intros x y z line n domains domains' out b H.
  apply parse_and_check_inv in H as (_ & Hc & (ints & Hi & Hf) & -> & _).
  apply parse_line_accepts. split; [exact Hc |].
  exists ints. simpl. repeat split; auto; lia.
Qed.

Lemma reference_parsers_agree_witness :
  parse_line ("1,0,0,1,1,1,'ore'" ++ Py.nl)%string 2 1 1 1
    = ret (Block 1 0 0 1 1 1 "ore").
Proof.
  refine (reference_parsers_agree 1 0 0 ("1,0,0,1,1,1,'ore'" ++ Py.nl)%string 2
            [] [("ore", 1)] [] (Block 1 0 0 1 1 1 "ore") _).
  vm_compute. reflexivity.
Defined.

(** ** A reference that ends before the chunk *)

(** X14.  When the reference runs out of data lines while entries of the
    chunk are left, and all the pairs before agreed, the run ends with
    status 1 and the diagnostic that names the candidate line of the first
    entry without a partner. *)
Theorem reference_too_short :
  forall (es1 : list entry) (bs : list block),
    Forall2 same_block es1 bs ->
    forall (e : entry) (es2 : list entry) (f1 : file) (n : Z),
      readable f1 ->
      Forall2 (parses 1 1 1) (data_lines f1) bs ->
      check_chunk (es1 ++ e :: es2) f1 n =
        ([MoreBlocksThanReference (eline e)], Raise (SystemExit 1)).
Proof.
  induction 1 as [| e1 b1 es1 bs [Hpos Hd] Hsame IH]; intros e es2 f1 n Hr Hf.
  - destruct (read_next_readable f1 n Hr) as (n' & f1' & Er & _).
    inversion Hf as [E0 |]. rewrite <- E0 in Er. simpl in Er.
    cbn [app check_chunk]. rewrite Er, bind_ret_l. reflexivity.
  - destruct (read_next_readable f1 n Hr) as (n' & f1' & Er & Hr' & D & _).
    pose proof (data_lines_nonempty _ Hr) as Hne.
    inversion Hf as [| l ? ls ? Hp Hf' E0]; subst.
    rewrite <- E0 in Er, D, Hne. simpl in Er, D.
    inversion Hne as [| ? ? Hl _].
    cbn [app]. rewrite (check_chunk_cons _ _ _ _ _ _ _ _ Er Hl (Hp _)).
    rewrite (proj2 (same_position_test _ _) Hpos).
    rewrite (proj2 (String.eqb_eq _ _) Hd). simpl negb. cbv iota.
    apply IH; [exact Hr' | rewrite D; exact Hf'].
Qed.

Lemma reference_too_short_witness :
  check_chunk ([Entry 0 0 0 "waste" 1] ++ Entry 1 0 0 "ore" 2 :: []) waste_ref_body 1 =
    ([MoreBlocksThanReference 2], Raise (SystemExit 1)).
Proof.
  refine (reference_too_short [Entry 0 0 0 "waste" 1] [Block 0 0 0 1 1 1 "waste"] _
            (Entry 1 0 0 "ore" 2) [] waste_ref_body 1 _ _).
  - repeat constructor.
  - readable_all.
  - simpl. parses_all.
Defined.

(** ** The value printed by a run that succeeds *)

Lemma read_chunk_count_mono px py pz z : forall fuel st chunk out st' chunk',
  read_chunk px py pz fuel z st chunk = (out, Ok (st', chunk')) ->
  block_count_f2 st <= block_count_f2 st'.
Proof.
  induction fuel as [| fuel IH]; intros st chunk out st' chunk' H; [discriminate |].
  cbn [read_chunk] in H.
  apply bind_ok_inv in H as (? & b & ? & _ & H & _).
  destruct (bz b <? z); [exfalso; eapply die_not_ok; exact H |].
  apply bind_ok_inv in H as (? & qx & ? & _ & H & _).
  apply bind_ok_inv in H as (? & qx' & ? & _ & H & _).
  destruct (negb (qx =? qx')); [exfalso; eapply die_not_ok; exact H |].
  apply bind_ok_inv in H as (? & qy & ? & _ & H & _).
  apply bind_ok_inv in H as (? & qy' & ? & _ & H & _).
  destruct (negb (qy =? qy')); [exfalso; eapply die_not_ok; exact H |].
  apply bind_ok_inv in H as (? & qz & ? & _ & H & _).
  apply bind_ok_inv in H as (? & qz' & ? & _ & H & _).
  destruct (negb (qz =? qz')); [exfalso; eapply die_not_ok; exact H |].
  destruct (_ <? _); [inversion H; subst; simpl; lia |].
  apply bind_ok_inv in H as (? & [[line n'] f2] & ? & _ & H & _).
  cbv zeta in H.
  destruct (String.eqb line EmptyString); [inversion H; subst; simpl; lia |].
  apply IH in H. simpl in H. lia.
Qed.

Lemma chunk_loop_count_mono px py pz zs : forall st out st',
  chunk_loop px py pz zs st = (out, Ok st') ->
  block_count_f2 st <= block_count_f2 st'.
Proof.
  induction zs as [| z zs IH]; intros st out st' H; cbn [chunk_loop] in H.
  - inversion H; subst. lia.
  - apply bind_ok_inv in H as (? & st1 & ? & Hb & H & _).
    apply IH in H. unfold chunk_body in Hb.
    apply bind_ok_inv in Hb as (? & [st2 chunk] & ? & Hr & Hb & _).
    apply bind_ok_inv in Hb as (? & [f1 n] & ? & _ & Hb & _).
    inversion Hb; subst. simpl in H.
    apply read_chunk_count_mono in Hr. eapply Z.le_trans; eassumption.
Qed.

Lemma ratio_le_1 a b : 0 < b -> 0 <= a -> (inject_Z (b - a) / inject_Z b <= 1)%Q.
Proof.
  intros Hb Ha. destruct b as [| p | p]; try lia.
  assert (Z.pos p - a <= Z.pos p) as Hd by lia.
  revert Hd. generalize (Z.pos p - a). intros d Hd.
  unfold Qdiv, Qmult, Qinv, Qle. simpl. lia.
Qed.

(** X15.  Under a header whose counts multiply to a positive number, every
    run of the analysis that succeeds returns the value
    [(reference_block_count - c) / reference_block_count] for a count
    [c >= 0] of candidate blocks, so that the value printed never exceeds
    1. *)
Theorem analysis_value :
  forall (hdr : string) (body f2 : file) (out : list message) (q : Q)
         (x_count y_count z_count px py pz : Z),
    parse_line1_of_file1 hdr 1 = ret [x_count; y_count; z_count; px; py; pz] ->
    0 < x_count * y_count * z_count ->
    analyse (Line hdr :: body) f2 = (out, Ok q) ->
    exists c,
      0 <= c /\
      q = (inject_Z (x_count * y_count * z_count - c)
           / inject_Z (x_count * y_count * z_count))%Q /\
      (q <= 1)%Q.
Proof.
  intros hdr body f2 out q xc yc zc px py pz Hhdr HN H.
  unfold analyse, get_header_info_of_file1 in H. cbn [readline] in H.
  rewrite bind_ret_l in H.
  assert (hdr <> EmptyString) as Hne.
  { intros ->. simpl in Hhdr. discriminate. }
  rewrite (proj2 (String.eqb_neq _ _) Hne) in H.
  unfold try_except in H. cbn [ret] in H. cbn iota in H.
  fold (ret (A := string * file) (hdr, body)) in H.
  rewrite bind_ret_l, Hhdr, bind_ret_l in H. unfold item in H. cbn [nth_error] in H.
  rewrite !bind_ret_l in H.
  apply bind_ok_inv in H as (? & [[line n] f2'] & ? & _ & H & _).
  destruct (String.eqb line EmptyString); [exfalso; eapply die_not_ok; exact H |].
  destruct (Py.range3 0 zc pz) as [zs |]; [| discriminate].
  apply bind_ok_inv in H as (? & st & ? & Hloop & H & _).
  apply chunk_loop_count_mono in Hloop. simpl in Hloop.
  unfold truediv in H.
  destruct (Z.eqb_spec (xc * yc * zc) 0); [lia |].
  inversion H; subst.
  exists (block_count_f2 st). repeat split; [exact Hloop |].
  apply ratio_le_1; assumption.
Qed.

Lemma analysis_value_witness :
  exists c,
    0 <= c /\
    (-2 # 1)%Q = (inject_Z (1 * 1 * 1 - c) / inject_Z (1 * 1 * 1))%Q /\
    (-2 # 1 <= 1)%Q.
Proof.
  refine (analysis_value ("# 1,1,1,2,2,2" ++ Py.nl)%string (tl padded_ref) padded_out
            [] (-2 # 1)%Q 1 1 1 2 2 2 _ _ _).
  - vm_compute. reflexivity.
  - reflexivity.
  - vm_compute. reflexivity.
Defined.

(** ** An output that starts beyond the grid *)

Lemma in_iota_step z step : forall n s,
  In z (Py.iota s step n) -> exists i, (i < n)%nat /\ z = s + Z.of_nat i * step.
Proof.
  induction n as [| n IH]; intros s H; simpl in H; [contradiction |].
  destruct H as [<- | H].
  - exists 0%nat. split; [lia | simpl; lia].
  - apply IH in H as (i & Hi & ->). exists (S i). split; [lia |].
    rewrite Nat2Z.inj_succ. lia.
Qed.

Lemma chunk_loop_beyond px py pz b :
  0 < px -> 0 < py -> 0 < pz ->
  crosses_some px py pz b = false ->
  forall zs st,
    parse_line (line_f2 st) (line_count_f2 st) px py pz = ret b ->
    Forall (fun z => z + pz - 1 < bz b) zs ->
    exists st',
      chunk_loop px py pz zs st = ret st' /\
      block_count_f2 st' = block_count_f2 st.
Proof.
  intros Hpx Hpy Hpz Hc.
  induction zs as [| z zs IH]; intros st Hp Hz; cbn [chunk_loop].
  - exists st. auto.
  - inversion Hz as [| ? ? Hz1 Hzs]; subst.
    unfold chunk_body.
    rewrite (read_chunk_close px py pz Hpx Hpy Hpz _ _ _ _ b Hp (conj Hz1 Hc)).
    rewrite bind_ret_l. cbn [sort check_chunk]. rewrite !bind_ret_l.
    cbn [file1 line_count_f1 file2 line_f2 line_count_f2
         line_count_f2_last_chunk_end block_count_f2].
    destruct (IH (State (file1 st) (line_count_f1 st) (file2 st) (line_f2 st)
                    (line_count_f2 st) (line_count_f2 st) (block_count_f2 st)))
      as (st' & Eloop & Ecount); auto.
    exists st'. auto.
Qed.

(** X16.  If the first block of the candidate output lies beyond the last
    slab of the grid and crosses no parent boundary, the analysis succeeds
    whatever the reference file holds after its header: every slab is
    closed at once with an empty chunk, no reference line is read, no
    block is counted, and the value returned is
    [reference_block_count / reference_block_count], that is 1. *)
Theorem output_beyond_grid_accepted :
  forall (hdr : string) (body rest : file) (comments : list string)
         (line : string) (b : block) (x_count y_count z_count px py pz : Z),
    parse_line1_of_file1 hdr 1 = ret [x_count; y_count; z_count; px; py; pz] ->
    0 < px -> 0 < py -> 0 < pz ->
    x_count * y_count * z_count <> 0 ->
    Forall (fun l => skipped l = true) comments ->
    skipped line = false ->
    parses px py pz line b ->
    crosses_some px py pz b = false ->
    z_count + pz - 1 <= bz b ->
    let reference_block_count := x_count * y_count * z_count in
    analyse (Line hdr :: body) (map Line comments ++ Line line :: rest) =
      ret (inject_Z (reference_block_count - 0) / inject_Z reference_block_count)%Q /\
    (inject_Z (reference_block_count - 0) / inject_Z reference_block_count == 1)%Q.
Proof.
  intros hdr body rest comments line b xc yc zc px py pz Hhdr Hpx Hpy Hpz HN
    Hcom Hskip Hp Hc Hz N.
  split.
  - unfold analyse, get_header_info_of_file1. cbn [readline].
    rewrite bind_ret_l.
    assert (hdr <> EmptyString) as Hne.
    { intros ->. simpl in Hhdr. discriminate. }
    rewrite (proj2 (String.eqb_neq _ _) Hne).
    unfold try_except. cbn [ret]. cbn iota. fold (ret (A := string * file) (hdr, body)).
    rewrite bind_ret_l, Hhdr, bind_ret_l. unfold item. cbn [nth_error].
    rewrite !bind_ret_l.
    rewrite (proj1 (reader_skips_comments comments line rest 0 Hcom Hskip)).
    rewrite bind_ret_l.
    assert (line <> EmptyString) as Hl.
    { intros ->. specialize (Hp 0). vm_compute in Hp. discriminate. }
    rewrite (proj2 (String.eqb_neq _ _) Hl).
    unfold Py.range3. rewrite (proj2 (Z.eqb_neq pz 0)) by lia.
    rewrite (proj2 (Z.ltb_lt 0 pz)) by lia.
    destruct (chunk_loop_beyond px py pz b Hpx Hpy Hpz Hc
                (Py.iota 0 pz (Z.to_nat ((zc - 0 + pz - 1) / pz)))
                (State body 1 rest line (0 + Z.of_nat (List.length comments) + 1) 0 0))
      as (st' & Eloop & Ecount).
    + apply Hp.
    + apply Forall_forall. intros z Hin.
      apply in_iota_step in Hin as (i & Hi & ->).
      pose proof (Z.mul_div_le (zc - 0 + pz - 1) pz Hpz) as Hq.
      assert (0 <= (zc - 0 + pz - 1) / pz) as Hq0 by lia.
      assert (Z.of_nat i + 1 <= (zc - 0 + pz - 1) / pz) as Hi' by lia.
      assert (pz * (Z.of_nat i + 1) <= pz * ((zc - 0 + pz - 1) / pz)) as Hm
        by (apply Z.mul_le_mono_nonneg_l; lia).
      lia.
    + rewrite Eloop, bind_ret_l. unfold truediv.
      rewrite (proj2 (Z.eqb_neq _ 0) HN). simpl in Ecount. rewrite Ecount.
      reflexivity.
  - subst N. rewrite Z.sub_0_r. apply Qmult_inv_r.
    unfold Qeq. simpl. lia.
Qed.

Lemma output_beyond_grid_accepted_witness :
  analyse (Line ("# 2,2,2,2,2,1" ++ Py.nl)%string :: tl ore_ref)
          (map Line [] ++ Line ("0,0,2,1,1,1,x" ++ Py.nl)%string :: []) =
    ret (inject_Z (2 * 2 * 2 - 0) / inject_Z (2 * 2 * 2))%Q.
Proof.
  refine (proj1 (output_beyond_grid_accepted ("# 2,2,2,2,2,1" ++ Py.nl)%string
                   (tl ore_ref) [] [] ("0,0,2,1,1,1,x" ++ Py.nl)%string
                   (Block 0 0 2 1 1 1 "x") 2 2 2 2 2 1 _ _ _ _ _ _ _ _ _ _));
    try reflexivity; try discriminate;
    try (intros n; vm_compute; reflexivity); try (simpl; lia).
  constructor.
Defined.

(** ** The header line *)

Lemma slice_from_1 c t : Py.slice_from 1 (String c t) = t.
Proof.
  unfold Py.slice_from, Py.clamp, Py.len. cbn [String.length].
  rewrite (proj2 (Z.ltb_ge 1 0)) by lia.
  replace (Z.to_nat (Z.min 1 (Z.of_nat (S (String.length t))))) with 1%nat by lia.
  simpl. rewrite Nat.sub_0_r. apply substring_all.
Qed.

(** X17.  [parse_line1_of_file1] returns the integers of a header exactly
    when the line starts with [#] and what follows is six integers
    separated by commas, whatever the line count. *)
Theorem header_accepts :
  forall (line : string) (n : Z) (ints : list Z),
    parse_line1_of_file1 line n = ret ints <->
    exists t,
      line = String "#" t /\
      ints_of (Py.split "," t) = inl ints /\
      List.length ints = 6%nat.
Proof.
  intros line n ints. unfold parse_line1_of_file1, die, sys_exit, raise, print.
  destruct line as [| c t].
  { split; [discriminate | intros (t & H & _); discriminate]. }
  rewrite slice_from_1.
  destruct (Ascii.eqb_spec c "#") as [-> | Hc]; simpl negb; cbv iota.
  2: { split; [discriminate | intros (t' & H & _); congruence]. }
  destruct (ints_of (Py.split "," t)) as [ints' | bad] eqn:Ei.
  2: { split; [discriminate |].
       intros (t' & H & Hi & _). inversion H; subst. congruence. }
  destruct (Z.eqb_spec (Z.of_nat (List.length ints')) 6) as [El | El]; simpl negb;
    cbv iota.
  - split.
    + intros H. inversion H; subst. exists t. repeat split; auto. lia.
    + intros (t' & H & Hi & _). inversion H; subst. congruence.
  - split; [discriminate |].
    intros (t' & H & Hi & Hl). inversion H; subst.
    rewrite Ei in Hi. inversion Hi; subst. lia.
Qed.

Lemma header_accepts_witness :
  parse_line1_of_file1 ("# 2,2,2,2,2,1" ++ Py.nl)%string 1 = ret [2; 2; 2; 2; 2; 1].
Proof.
  refine (proj2 (header_accepts ("# 2,2,2,2,2,1" ++ Py.nl)%string 1 [2; 2; 2; 2; 2; 1]) _).
  exists (" 2,2,2,2,2,1" ++ Py.nl)%string. repeat split; vm_compute; reflexivity.
Defined.

(** ** An output that ends before a slab *)

(** X18.  When the candidate output ends with the blocks of a slab that
    agree with the reference and a further slab is still to come, the run
    ends with status 1 and the diagnostic of a line of the wrong format,
    shown with an empty line. *)
Theorem output_ends_before_slab :
  forall px py pz z z' zs st good cur refs,
    0 < px -> 0 < py -> 0 < pz ->
    presents px py pz (line_f2 st) (file2 st) good ->
    good <> [] ->
    Forall (in_slab px py pz z) good ->
    readable (file1 st) ->
    Forall2 (parses 1 1 1) (data_lines (file1 st)) (cur ++ refs) ->
    Permutation (flat_map cells_of_block good) (map cell_of_block cur) ->
    StronglySorted cell_lt (map cell_of_block cur) ->
    exists n,
      chunk_loop px py pz (z :: z' :: zs) st =
        ([ExpectingFormat n EmptyString], Raise (SystemExit 1)).
Proof.
  intros px py pz z z' zs st good cur refs Hpx Hpy Hpz Hpres Hne Hgood Hr Hf HP Hs.
  destruct (chunk_body_ok px py pz Hpx Hpy Hpz z st good [] cur refs)
    as (st1 & Ebody & (_ & Hline) & _); auto.
  { rewrite app_nil_r. exact Hpres. }
  exists (line_count_f2 st1).
  cbn [chunk_loop]. rewrite Ebody, bind_ret_l.
  unfold chunk_body. cbn [read_chunk]. rewrite Hline. reflexivity.
Qed.

Lemma output_ends_before_slab_witness :
  exists n,
    chunk_loop 1 1 1 [0; 1] (State waste_ref_body 1 [] ("0,0,0,1,1,1,waste" ++ Py.nl)%string 1 0 0) =
      ([ExpectingFormat n EmptyString], Raise (SystemExit 1)).
Proof.
  refine (output_ends_before_slab 1 1 1 0 1 []
            (State waste_ref_body 1 [] ("0,0,0,1,1,1,waste" ++ Py.nl)%string 1 0 0)
            [Block 0 0 0 1 1 1 "waste"] [Block 0 0 0 1 1 1 "waste"] []
            _ _ _ _ _ _ _ _ _ _); try reflexivity.
  - presents_one.
  - discriminate.
  - constructor; [| constructor]. split; [simpl; lia | reflexivity].
  - readable_all.
  - simpl. parses_all.
  - repeat constructor.
Defined.
